(** * Die-Plate-Designer: geometry and derived metrics

    A shallow embedding of the two Streamlit scripts of the repository that
    run:

      - [die_perforation_6.py]     (module [DiePerforation6])
      - [die_designer_final_4.py]  (module [DieDesignerFinal4])

    Each script reads its widgets, computes the "Calculated Outputs" and then
    builds the 2D profile, the 3D revolution mesh (the first script only) and
    the ring layout.  The third file,
    [die_designer_final_3_updated_v4_techdraw_updated.py], is not embedded: as
    committed it has an unexpected indent at line 68, so Python rejects it
    before it runs a statement.

    Numbers.  Python [int]s are [Z].  Python and numpy floats are idealised as
    real numbers ([R]): rounding, overflow and NaN are not modelled.  What is
    modelled of the float operations is their control behaviour: the division
    of two Python scalars raises [ZeroDivisionError] on a zero divisor
    ([Py.truediv]).

    Effects.  A script is a sequence of statements; an exception aborts it and
    nothing after the raising statement is produced.  This is the error monad
    [result] below. *)

From Stdlib Require Import Reals Lra Lia ZArith List Permutation Sorted.
Import ListNotations.

Open Scope R_scope.

(** ** Exceptions and the error monad *)

Inductive exn : Type :=
| ZeroDivisionError.

Inductive result (A : Type) : Type :=
| Ok (a : A)
| Raise (e : exn).

Arguments Ok {A} a.
Arguments Raise {A} e.

Definition bind {A B : Type} (c : result A) (k : A -> result B) : result B :=
  match c with
  | Ok a => k a
  | Raise e => Raise e
  end.

Notation "x <- c ;; k" := (bind c (fun x => k))
  (at level 61, c at next level, right associativity).

Definition raises {A : Type} (c : result A) : Prop :=
  exists e, c = Raise e.

Definition returns {A : Type} (c : result A) : Prop :=
  exists a, c = Ok a.

(** ** Python built-ins used by the scripts *)

Module Py.

(** [x / y] on two Python scalars (float/float, float/int). *)
Definition truediv (x y : R) : result R :=
  if Req_dec_T y 0 then Raise ZeroDivisionError else Ok (x / y).

(** [int(a / b)] on two Python ints: the true quotient truncated towards
  zero. *)
Definition int_truediv (a b : Z) : result Z :=
  if Z.eqb b 0 then Raise ZeroDivisionError else Ok (Z.quot a b).

(** [range(n)]. *)
Definition range (n : Z) : list nat := seq 0 (Z.to_nat n).

(** [sorted(l)]: [list.sort] compares with [<] and is stable; an element is
  inserted behind every element it is not smaller than. *)
Fixpoint insert (x : R) (l : list R) : list R :=
  match l with
  | [] => [x]
  | y :: t => if Rlt_dec x y then x :: y :: t else y :: insert x t
  end.

Definition sorted (l : list R) : list R :=
  fold_left (fun acc x => insert x acc) l [].

(** [max(l)]: the first greatest element; [None] stands for the
    [ValueError] that [max] of an empty sequence raises. *)
Definition max (l : list R) : option R :=
  match l with
  | [] => None
  | x :: t => Some (fold_left (fun best y => if Rlt_dec best y then y else best) t x)
  end.

End Py.

(** ** numpy functions used by the scripts *)

Module Np.

Definition pi : R := PI.

Definition arctan (x : R) : R := atan x.

(** [np.degrees(x)]: radians to degrees. *)
Definition degrees (x : R) : R := x * (180 / PI).

(** [np.linspace(start, stop, num)], endpoint included:
  [start + i * (stop - start) / (num - 1)] for [i] in [0, num). *)
Definition linspace (start stop : R) (num : nat) : list R :=
  map (fun i => start + INR i * ((stop - start) / INR (num - 1))) (seq 0 num).

(** [np.full_like(a, v)]. *)
Definition full_like {A : Type} (a : list A) (v : R) : list R :=
  map (fun _ => v) a.

(** [np.diff(a)]: [a[i+1] - a[i]]. *)
Fixpoint diff (a : list R) : list R :=
  match a with
  | x :: (y :: _) as t => (y - x) :: diff t
  | _ => []
  end.

Definition sum (a : list R) : R := fold_right Rplus 0 a.

(** [np.mean(a)]; the scripts only call it on a non-empty array. *)
Definition mean (a : list R) : R := sum a / INR (length a).

(** [np.meshgrid(x, y)]: both grids have one row per entry of [y]. *)
Definition meshgrid (x y : list R) : list (list R) * list (list R) :=
  (map (fun _ => x) y, map (fun yi => map (fun _ => yi) x) y).

(** [r[:, np.newaxis] * g]: row [i] of [g] scaled by [r[i]]. *)
Definition column_times (r : list R) (g : list (list R)) : list (list R) :=
  map (fun rg => map (fun v => fst rg * v) (snd rg)) (combine r g).

End Np.

(** ** Drawing primitives (matplotlib patches), as plain data *)

Record Circle : Type := mkCircle {
  circle_x : R;
  circle_y : R;
  circle_radius : R
}.

Record Polygon : Type := mkPolygon {
  poly_xy : list (R * R);
  poly_closed : bool
}.

Record Rectangle : Type := mkRectangle {
  rect_xy : R * R;
  rect_width : R;
  rect_height : R
}.

(** A matplotlib axes, as far as the scripts use it: the patches added so
    far and the limits set last ([None]: never set). *)
Record Axes : Type := mkAxes {
  ax_patches : list Circle;
  ax_xlim : option (R * R);
  ax_ylim : option (R * R)
}.

Definition new_axes : Axes := mkAxes [] None None.

Definition add_patch (ax : Axes) (c : Circle) : Axes :=
  mkAxes (ax_patches ax ++ [c]) (ax_xlim ax) (ax_ylim ax).

Definition set_xlim (ax : Axes) (lo hi : R) : Axes :=
  mkAxes (ax_patches ax) (Some (lo, hi)) (ax_ylim ax).

Definition set_ylim (ax : Axes) (lo hi : R) : Axes :=
  mkAxes (ax_patches ax) (ax_xlim ax) (Some (lo, hi)).

(** A slider delivers [lo + k * step] within [[lo, hi]].  When the maximum
    handed to [st.slider] is below the default value, the slider reaches up to
    the default: the channel sliders below have the maximum
    [max(default, min(35, plate_thickness))]. *)
Definition slider (lo hi step v : R) : Prop :=
  lo <= v <= hi /\ exists k : nat, v = lo + INR k * step.

(** ** die_perforation_6.py *)

Module DiePerforation6.

Record Inputs : Type := mkInputs {
  pellet_size : R;
  bulk_density : Z;
  final_fat : Z;
  plate_thickness : R;
  final_diameter : R;
  cone_diameter : R;
  channel_length : R;
  total_holes : Z;
  dry_meal_throughput : R;
  number_of_rows : Z;
  pcd_slider : nat -> R   (* the slider "PCD for Row i+1" *)
}.

(** The ranges the widgets enforce (lines 12-33). *)
Definition widgets_ok (inp : Inputs) : Prop :=
  slider (3/10) 20 (1/10) (pellet_size inp) /\
  (300 <= bulk_density inp <= 750)%Z /\
  (7 <= final_fat inp <= 44)%Z /\
  slider 1 40 (1/2) (plate_thickness inp) /\
  slider (3/10) 20 (1/20) (final_diameter inp) /\
  slider (3/10) 25 (1/20) (cone_diameter inp) /\
  slider (1/10) (Rmax 5 (Rmin 35 (plate_thickness inp))) (1/10)
         (channel_length inp) /\
  (1 <= total_holes inp)%Z /\
  1/10 <= dry_meal_throughput inp /\
  (1 <= number_of_rows inp)%Z /\
  (forall i, slider 50 600 1 (pcd_slider inp i)).

Section Calculations.
Variable inp : Inputs.

(** Lines 31-34. *)
Definition pcd_values : list R :=
  map (pcd_slider inp) (Py.range (number_of_rows inp)).

(** Lines 37-45. *)
Definition cone_length : R := plate_thickness inp - channel_length inp.

Definition cone_radius : R :=
  Rabs ((cone_diameter inp - final_diameter inp) / 2).

Definition cone_angle_rad : R :=
  if Rlt_dec 0 cone_length then Np.arctan (cone_radius / cone_length) else 0.

Definition cone_angle_deg : R := Np.degrees cone_angle_rad.

Definition holes_per_row : result Z :=
  Py.int_truediv (total_holes inp) (number_of_rows inp).

Definition open_area_one_hole : R := Np.pi * (final_diameter inp / 2) ^ 2.

Definition total_open_area : R := open_area_one_hole * IZR (total_holes inp).

Definition open_area_per_tonne : result R :=
  Py.truediv total_open_area (dry_meal_throughput inp).

Definition expansion : R :=
  if Rlt_dec 0 (pellet_size inp)
  then (1 - final_diameter inp / pellet_size inp) * 100
  else 0.

(** Lines 48-53: the loop appends one spacing per PCD. *)
Fixpoint spacing_loop (hpr : Z) (pcds : list R) (acc : list R)
  : result (list R) :=
  match pcds with
  | [] => Ok acc
  | pcd :: rest =>
      let radius := pcd / 2 in
      arc_length <- Py.truediv (2 * Np.pi * radius) (IZR hpr) ;;
      let spacing := arc_length - final_diameter inp in
      spacing_loop hpr rest (acc ++ [spacing])
  end.

Definition space_between_holes_list (hpr : Z) : result (list R) :=
  spacing_loop hpr pcd_values [].

(** Line 56. *)
Definition space_between_rows : R :=
  if Nat.ltb 1 (length pcd_values)
  then Np.mean (Np.diff (Py.sorted pcd_values))
  else 0.

Record Metrics : Type := mkMetrics {
  m_cone_length : R;
  m_cone_angle_deg : R;
  m_holes_per_row : Z;
  m_open_area_one_hole : R;
  m_total_open_area : R;
  m_open_area_per_tonne : R;
  m_expansion : R;
  m_space_between_holes_list : list R;
  m_space_between_rows : R
}.

(** Lines 37-56 in statement order. *)
Definition calculated_outputs : result Metrics :=
  hpr <- holes_per_row ;;
  oapt <- open_area_per_tonne ;;
  spaces <- space_between_holes_list hpr ;;
  Ok (mkMetrics cone_length cone_angle_deg hpr open_area_one_hole
        total_open_area oapt expansion spaces space_between_rows).

(** Lines 81-92: the 2D cross-section. *)
Definition cone_patch : Polygon :=
  mkPolygon
    [ (- cone_diameter inp / 2, 0);
      (- final_diameter inp / 2, cone_length);
      (- final_diameter inp / 2, plate_thickness inp);
      (final_diameter inp / 2, plate_thickness inp);
      (final_diameter inp / 2, cone_length);
      (cone_diameter inp / 2, 0) ]
    true.

Definition channel_patch : Rectangle :=
  mkRectangle (- final_diameter inp / 2, cone_length)
              (final_diameter inp) (channel_length inp).

(** Lines 104-118: the surface of revolution. *)
Definition z_cone : list R := Np.linspace 0 cone_length 30.
Definition z_channel : list R := Np.linspace cone_length (plate_thickness inp) 10.
Definition theta : list R := Np.linspace 0 (2 * Np.pi) 30.
Definition theta_grid : list (list R) := fst (Np.meshgrid theta z_cone).
Definition z_cone_grid : list (list R) := snd (Np.meshgrid theta z_cone).
Definition theta_grid2 : list (list R) := fst (Np.meshgrid theta z_channel).
Definition z_channel_grid : list (list R) := snd (Np.meshgrid theta z_channel).

Definition r_cone : list R :=
  if Rlt_dec 0 cone_length
  then map (fun z => cone_diameter inp / 2
                     - (cone_diameter inp - final_diameter inp) / 2
                       * (z / cone_length)) z_cone
  else Np.full_like z_cone (final_diameter inp / 2).

Definition x_cone : list (list R) := Np.column_times r_cone (map (map cos) theta_grid).
Definition y_cone : list (list R) := Np.column_times r_cone (map (map sin) theta_grid).
Definition z_cone_plot : list (list R) := z_cone_grid.

Definition r_channel : list R := Np.full_like z_channel (final_diameter inp / 2).
Definition x_channel : list (list R) :=
  Np.column_times r_channel (map (map cos) theta_grid2).
Definition y_channel : list (list R) :=
  Np.column_times r_channel (map (map sin) theta_grid2).
Definition z_channel_plot : list (list R) := z_channel_grid.

(** Lines 130-137: the ring layout.  [ring_row] is the inner loop; inside
    it [hpr >= 1], so the division by [hpr] cannot raise. *)
Definition ring_row (radius : R) (hpr : Z) : list Circle :=
  map (fun i =>
         let angle := 2 * Np.pi * INR i / IZR hpr in
         let x := radius * cos angle in
         let y := radius * sin angle in
         mkCircle x y (final_diameter inp / 2))
      (Py.range hpr).

Definition ring_rows (hpr : Z) : list (list Circle) :=
  map (fun pcd => let radius := pcd / 2 in ring_row radius hpr) pcd_values.

(** The patches added to [ax_ring], in order. *)
Definition ring_patches (hpr : Z) : list Circle := concat (ring_rows hpr).

Record Figures : Type := mkFigures {
  f_cone_patch : Polygon;
  f_channel_patch : Rectangle;
  f_r_cone : list R;
  f_r_channel : list R;
  f_ring : list Circle
}.

(** The whole script: the figures are drawn after the outputs. *)
Definition script : result (Metrics * Figures) :=
  m <- calculated_outputs ;;
  Ok (m, mkFigures cone_patch channel_patch r_cone r_channel
           (ring_patches (m_holes_per_row m))).

(** Lines 76-77: the limits of the 2D cross-section. *)
Definition ax2d_xlim : R * R := (- cone_diameter inp, cone_diameter inp).
Definition ax2d_ylim : R * R := (0, plate_thickness inp + 5).

(** Lines 128-139 as they run: every hole is added to [ax_ring], and after
    each row the limits are set from that row's radius. *)
Definition ring_row_loop (radius : R) (hpr : Z) (ax : Axes) : Axes :=
  fold_left
    (fun ax i =>
       let angle := 2 * Np.pi * INR i / IZR hpr in
       let x := radius * cos angle in
       let y := radius * sin angle in
       let hole := mkCircle x y (final_diameter inp / 2) in
       add_patch ax hole)
    (Py.range hpr) ax.

Definition ring_loop (hpr : Z) (pcds : list R) (ax : Axes) : Axes :=
  fold_left
    (fun ax pcd =>
       let radius := pcd / 2 in
       let ax := ring_row_loop radius hpr ax in
       let ax := set_xlim ax (- radius - 10) (radius + 10) in
       set_ylim ax (- radius - 10) (radius + 10))
    pcds ax.

Definition ax_ring (hpr : Z) : Axes := ring_loop hpr pcd_values new_axes.

End Calculations.

End DiePerforation6.

(** ** die_designer_final_4.py *)

Module DieDesignerFinal4.

Record Inputs : Type := mkInputs {
  pellet_size : R;
  bulk_density : Z;
  final_fat : Z;
  dry_meal_throughput : R;
  plate_thickness : R;
  final_diameter : R;
  cone_diameter : R;
  channel_length : R;
  total_holes : Z;
  number_of_rows : Z;
  pcd_slider : nat -> R;     (* the slider "PCD for Row i+1" *)
  holes_input : nat -> Z     (* the field "Holes in Row i+1" *)
}.

(** The ranges the widgets enforce (lines 12-34). *)
Definition widgets_ok (inp : Inputs) : Prop :=
  slider (3/10) 20 (1/10) (pellet_size inp) /\
  (300 <= bulk_density inp <= 750)%Z /\
  (7 <= final_fat inp <= 44)%Z /\
  slider (4/10) 30 (1/10) (dry_meal_throughput inp) /\
  slider 1 40 (1/2) (plate_thickness inp) /\
  slider (3/10) 20 (1/20) (final_diameter inp) /\
  slider (3/10) 25 (1/20) (cone_diameter inp) /\
  slider 1 (Rmax 10 (Rmin 35 (plate_thickness inp))) (1/10)
         (channel_length inp) /\
  (1 <= total_holes inp)%Z /\
  (1 <= number_of_rows inp)%Z /\
  (forall i, slider 50 600 1 (pcd_slider inp i)) /\
  (forall i, (1 <= holes_input inp i)%Z).

Section Calculations.
Variable inp : Inputs.

(** Lines 27-36. *)
Definition pcd_values : list R :=
  map (pcd_slider inp) (Py.range (number_of_rows inp)).

Definition holes_per_row_list : list Z :=
  map (holes_input inp) (Py.range (number_of_rows inp)).

(** Lines 39-46: no division is guarded. *)
Definition cone_length : R := plate_thickness inp - channel_length inp.

Definition cone_radius : R := (cone_diameter inp - final_diameter inp) / 2.

Definition cone_angle_rad : result R :=
  q <- Py.truediv cone_radius cone_length ;;
  Ok (Np.arctan q).

Definition cone_angle_deg : result R :=
  a <- cone_angle_rad ;;
  Ok (Np.degrees a).

Definition open_area_one_hole : R := Np.pi * (final_diameter inp / 2) ^ 2.

Definition total_open_area : R := open_area_one_hole * IZR (total_holes inp).

Definition open_area_per_tonne : result R :=
  Py.truediv total_open_area (dry_meal_throughput inp).

Definition expansion : result R :=
  q <- Py.truediv (final_diameter inp) (pellet_size inp) ;;
  Ok ((1 - q) * 100).

Record Metrics : Type := mkMetrics {
  m_cone_length : R;
  m_cone_angle_deg : R;
  m_open_area_one_hole : R;
  m_total_open_area : R;
  m_open_area_per_tonne : R;
  m_expansion : R
}.

Definition calculated_outputs : result Metrics :=
  angle <- cone_angle_deg ;;
  oapt <- open_area_per_tonne ;;
  e <- expansion ;;
  Ok (mkMetrics cone_length angle open_area_one_hole total_open_area oapt e).

(** Lines 65-74: the 2D cross-section. *)
Definition cone : Polygon :=
  mkPolygon
    [ (- cone_diameter inp / 2, 0);
      (- final_diameter inp / 2, cone_length);
      (- final_diameter inp / 2, plate_thickness inp);
      (final_diameter inp / 2, plate_thickness inp);
      (final_diameter inp / 2, cone_length);
      (cone_diameter inp / 2, 0) ]
    true.

Definition channel : Rectangle :=
  mkRectangle (- final_diameter inp / 2, cone_length)
              (final_diameter inp) (channel_length inp).

(** Lines 88-96: the ring layout with one hole count per row.  Both lists
    have [number_of_rows] entries, so [pcd_values[row]] and
    [holes_per_row_list[row]] are always in range. *)
Definition ring_row (radius : R) (holes_in_row : Z) : list Circle :=
  map (fun i =>
         let angle := 2 * Np.pi * INR i / IZR holes_in_row in
         let x := radius * cos angle in
         let y := radius * sin angle in
         mkCircle x y (final_diameter inp / 2))
      (Py.range holes_in_row).

Definition ring_rows : list (list Circle) :=
  map (fun row =>
         let radius := nth row pcd_values 0 / 2 in
         let holes_in_row := nth row holes_per_row_list 0%Z in
         ring_row radius holes_in_row)
      (Py.range (number_of_rows inp)).

Definition ring_patches : list Circle := concat ring_rows.

Record Figures : Type := mkFigures {
  f_cone : Polygon;
  f_channel : Rectangle;
  f_ring : list Circle
}.

Definition script : result (Metrics * Figures) :=
  m <- calculated_outputs ;;
  Ok (m, mkFigures cone channel ring_patches).

(** Lines 59-60: the limits of the 2D cross-section. *)
Definition ax_xlim_2d : R * R := (- cone_diameter inp, cone_diameter inp).
Definition ax_ylim_2d : R * R := (0, plate_thickness inp + 5).

(** Lines 97-98: the limits of the ring layout, from the greatest PCD. *)
Definition ring_xlim : option (R * R) :=
  match Py.max pcd_values with
  | Some m => Some (- m / 2 - 10, m / 2 + 10)
  | None => None
  end.

Definition ring_ylim : option (R * R) :=
  match Py.max pcd_values with
  | Some m => Some (- m / 2 - 10, m / 2 + 10)
  | None => None
  end.

End Calculations.

End DieDesignerFinal4.


(** ** Concrete widget settings used below *)

(** [die_perforation_6.py] with every widget at its default. *)
Definition p6_default : DiePerforation6.Inputs :=
  DiePerforation6.mkInputs 3 500 10 20 3 6 5 100 10 5 (fun _ => 100).

(** Seven holes asked for on three rows. *)
Definition p6_seven_on_three : DiePerforation6.Inputs :=
  DiePerforation6.mkInputs 3 500 10 20 3 6 5 7 10 3 (fun _ => 100).

(** Fewer holes than rows. *)
Definition p6_three_on_five : DiePerforation6.Inputs :=
  DiePerforation6.mkInputs 3 500 10 20 3 6 5 3 10 5 (fun _ => 100).

(** A throughput of zero, and a negative one (no widget delivers them). *)
Definition p6_no_throughput : DiePerforation6.Inputs :=
  DiePerforation6.mkInputs 3 500 10 20 3 6 5 100 0 5 (fun _ => 100).

Definition p6_negative_throughput : DiePerforation6.Inputs :=
  DiePerforation6.mkInputs 3 500 10 20 3 6 5 100 (-10) 5 (fun _ => 100).

(** Pellet size 5 and final diameter 10. *)
Definition p6_pellet5_final10 : DiePerforation6.Inputs :=
  DiePerforation6.mkInputs 5 500 10 20 10 12 5 100 10 5 (fun _ => 100).

(** The channel as long as the plate is thick. *)
Definition p6_flush : DiePerforation6.Inputs :=
  DiePerforation6.mkInputs 3 500 10 20 3 6 20 100 10 5 (fun _ => 100).

(** Rows on pitch circles 100, 140, 180, ... and the same rows listed
    from the other end. *)
Definition p6_spread : DiePerforation6.Inputs :=
  DiePerforation6.mkInputs 3 500 10 20 3 6 5 100 10 3
    (fun i => 100 + 40 * INR i).

Definition p6_spread_reversed : DiePerforation6.Inputs :=
  DiePerforation6.mkInputs 3 500 10 20 3 6 5 100 10 3
    (fun i => 180 - 40 * INR i).

(** [die_designer_final_4.py] with every widget at its default. *)
Definition f4_default : DieDesignerFinal4.Inputs :=
  DieDesignerFinal4.mkInputs 5 500 20 10 20 10 12 10 100 5
    (fun _ => 100) (fun _ => 10%Z).

(** The channel slider at its maximum: as long as the plate is thick. *)
Definition f4_flush : DieDesignerFinal4.Inputs :=
  DieDesignerFinal4.mkInputs 5 500 20 10 20 10 12 20 100 5
    (fun _ => 100) (fun _ => 10%Z).

(** A cone opening narrower than the final hole. *)
Definition f4_reverse_taper : DieDesignerFinal4.Inputs :=
  DieDesignerFinal4.mkInputs 5 500 20 10 20 10 5 10 100 5
    (fun _ => 100) (fun _ => 10%Z).

(** Pellet sizes no slider delivers. *)
Definition f4_no_pellet : DieDesignerFinal4.Inputs :=
  DieDesignerFinal4.mkInputs 0 500 20 10 20 10 12 10 100 5
    (fun _ => 100) (fun _ => 10%Z).

Definition f4_no_throughput : DieDesignerFinal4.Inputs :=
  DieDesignerFinal4.mkInputs 5 500 20 0 20 10 12 10 100 5
    (fun _ => 100) (fun _ => 10%Z).


(** [die_perforation_6.py] with the widest final hole behind the narrowest
    cone opening. *)
Definition p6_wide_hole : DiePerforation6.Inputs :=
  DiePerforation6.mkInputs 3 500 10 20 20 (3/10) 5 100 10 5 (fun _ => 100).


(** A plate thinner than the default channel length: the channel slider
    stays at its default. *)
Definition p6_thin_plate : DiePerforation6.Inputs :=
  DiePerforation6.mkInputs 3 500 10 4 3 6 5 100 10 5 (fun _ => 100).

Definition f4_thin_plate : DieDesignerFinal4.Inputs :=
  DieDesignerFinal4.mkInputs 5 500 20 10 8 10 12 10 100 5
    (fun _ => 100) (fun _ => 10%Z).

(** * Properties *)

(** ** Python and numpy helpers *)

Lemma Rmin_35_20 : Rmin 35 20 = 20.
Proof. apply Rmin_right. lra. Qed.

(** The maximum of a channel slider under a plate of thickness 20. *)
Lemma channel_max_20 (default : R) :
  default <= 20 -> Rmax default (Rmin 35 20) = 20.
Proof. intro H. rewrite Rmin_35_20. now apply Rmax_right. Qed.

Lemma truediv_ok (x y : R) : y <> 0 -> Py.truediv x y = Ok (x / y).
Proof.
  intro Hy. unfold Py.truediv. destruct (Req_dec_T y 0); [contradiction | reflexivity].
Qed.

Lemma truediv_zero (x : R) : Py.truediv x 0 = Raise ZeroDivisionError.
Proof.
  unfold Py.truediv. destruct (Req_dec_T 0 0) as [_ | H]; [reflexivity | now elim H].
Qed.

Lemma Rabs_half (x : R) : Rabs (x / 2) = Rabs x / 2.
Proof.
  unfold Rdiv. rewrite Rabs_mult. f_equal. apply Rabs_pos_eq. lra.
Qed.

Lemma degrees_zero_iff (x : R) : Np.degrees x = 0 <-> x = 0.
Proof.
  unfold Np.degrees. pose proof PI_RGT_0 as HP.
  split; intro H.
  - assert (H180 : 180 / PI <> 0).
    { apply Rgt_not_eq. apply Rdiv_lt_0_compat; lra. }
    apply Rmult_integral in H. destruct H; [assumption | contradiction].
  - subst. ring.
Qed.

Lemma degrees_nonneg (x : R) : 0 <= x -> 0 <= Np.degrees x.
Proof.
  intro H. unfold Np.degrees. pose proof PI_RGT_0 as HP.
  apply Rmult_le_pos; [assumption|].
  apply Rlt_le, Rdiv_lt_0_compat; lra.
Qed.

Lemma degrees_neg (x : R) : x < 0 -> Np.degrees x < 0.
Proof.
  intro H. unfold Np.degrees. pose proof PI_RGT_0 as HP.
  assert (0 < 180 / PI) by (apply Rdiv_lt_0_compat; lra).
  nra.
Qed.

Lemma arctan_nonneg (x : R) : 0 <= x -> 0 <= Np.arctan x.
Proof.
  unfold Np.arctan. intros [H | <-].
  - left. rewrite <- atan_0. now apply atan_increasing.
  - rewrite atan_0. lra.
Qed.

Lemma arctan_neg (x : R) : x < 0 -> Np.arctan x < 0.
Proof.
  unfold Np.arctan. intro H. rewrite <- atan_0. now apply atan_increasing.
Qed.

Lemma arctan_zero_iff (x : R) : Np.arctan x = 0 <-> x = 0.
Proof.
  unfold Np.arctan. split; intro H.
  - now apply atan_eq0.
  - subst. apply atan_0.
Qed.

(** ** The cone angle *)

Section Perforation6_cone_angle.
Import DiePerforation6.

(** [die_perforation_6.py] guards the division and takes the absolute value:
    with a positive cone length the angle is
    [degrees(atan(|coneDiameter - finalDiameter| / 2 / coneLength))], it is
    never negative and it vanishes only for equal diameters; without a
    positive cone length the angle is 0. *)
Lemma p6_cone_angle_deg_spec (inp : Inputs) :
  (0 < cone_length inp ->
     cone_angle_deg inp
     = Np.degrees (Np.arctan (Rabs (cone_diameter inp - final_diameter inp) / 2
                              / cone_length inp))
     /\ 0 <= cone_angle_deg inp
     /\ (cone_angle_deg inp = 0 <-> cone_diameter inp = final_diameter inp))
  /\ (cone_length inp <= 0 -> cone_angle_deg inp = 0).
Proof.
  unfold cone_angle_deg, cone_angle_rad, cone_radius. split.
  - intro Hlen. destruct (Rlt_dec 0 (cone_length inp)) as [_ | Hn]; [| contradiction].
    rewrite Rabs_half.
    set (d := cone_diameter inp - final_diameter inp).
    assert (Hq : 0 <= Rabs d / 2 / cone_length inp).
    { apply Rmult_le_pos.
      - pose proof (Rabs_pos d). lra.
      - left. now apply Rinv_0_lt_compat. }
    split; [reflexivity |]. split.
    + now apply degrees_nonneg, arctan_nonneg.
    + rewrite degrees_zero_iff, arctan_zero_iff. split.
      * intro H0.
        assert (Hd : Rabs d = 0).
        { apply Rmult_eq_reg_r with (r := / 2 * / cone_length inp).
          - unfold Rdiv in H0. rewrite <- Rmult_assoc, H0. ring.
          - apply Rgt_not_eq. apply Rmult_lt_0_compat; [lra |].
            now apply Rinv_0_lt_compat. }
        destruct (Req_dec_T d 0) as [Hz | Hnz].
        -- unfold d in Hz. lra.
        -- apply Rabs_no_R0 in Hnz. contradiction.
      * intro Heq. unfold d. rewrite Heq.
        replace (final_diameter inp - final_diameter inp) with 0 by ring.
        rewrite Rabs_R0. unfold Rdiv. ring.
  - intro Hlen. destruct (Rlt_dec 0 (cone_length inp)) as [Hp | _]; [lra |].
    apply degrees_zero_iff. reflexivity.
Qed.

End Perforation6_cone_angle.

Section Final4_cone_angle.
Import DieDesignerFinal4.

Lemma f4_flush_widgets_ok : widgets_ok f4_flush.
Proof.
  unfold widgets_ok, f4_flush; simpl.
  rewrite channel_max_20 by lra.
  repeat split; try lia; try lra.
  - exists 47%nat; rewrite INR_IZR_INZ; simpl; lra.
  - exists 96%nat; rewrite INR_IZR_INZ; simpl; lra.
  - exists 38%nat; rewrite INR_IZR_INZ; simpl; lra.
  - exists 194%nat; rewrite INR_IZR_INZ; simpl; lra.
  - exists 234%nat; rewrite INR_IZR_INZ; simpl; lra.
  - exists 190%nat; rewrite INR_IZR_INZ; simpl; lra.
  - exists 50%nat; rewrite INR_IZR_INZ; simpl; lra.
Qed.

Lemma f4_reverse_taper_widgets_ok : widgets_ok f4_reverse_taper.
Proof.
  unfold widgets_ok, f4_reverse_taper; simpl.
  rewrite channel_max_20 by lra.
  repeat split; try lia; try lra.
  - exists 47%nat; rewrite INR_IZR_INZ; simpl; lra.
  - exists 96%nat; rewrite INR_IZR_INZ; simpl; lra.
  - exists 38%nat; rewrite INR_IZR_INZ; simpl; lra.
  - exists 194%nat; rewrite INR_IZR_INZ; simpl; lra.
  - exists 94%nat; rewrite INR_IZR_INZ; simpl; lra.
  - exists 90%nat; rewrite INR_IZR_INZ; simpl; lra.
  - exists 50%nat; rewrite INR_IZR_INZ; simpl; lra.
Qed.

Lemma f4_cone_angle_raises (inp : Inputs) :
  cone_length inp = 0 ->
  cone_angle_deg inp = Raise ZeroDivisionError
  /\ script inp = Raise ZeroDivisionError.
Proof.
  intro H0.
  assert (Ha : cone_angle_deg inp = Raise ZeroDivisionError).
  { unfold cone_angle_deg, cone_angle_rad. rewrite H0, truediv_zero. reflexivity. }
  split; [exact Ha |].
  unfold script, calculated_outputs. rewrite Ha. reflexivity.
Qed.

(** C1, on [die_designer_final_4.py] (lines 39-42).  With the channel
    slider at the plate thickness the cone length is 0 and the division
    [cone_radius / cone_length] raises [ZeroDivisionError], which aborts the
    script, where [die_perforation_6.py] returns the angle 0; with a cone
    opening narrower than the final hole the angle is negative, where
    [die_perforation_6.py] takes the absolute value.  Both settings are within
    the widgets' ranges. *)
Theorem cone_angle_unguarded :
  (widgets_ok f4_flush
   /\ cone_length f4_flush = 0
   /\ cone_angle_deg f4_flush = Raise ZeroDivisionError
   /\ script f4_flush = Raise ZeroDivisionError)
  /\
  (widgets_ok f4_reverse_taper
   /\ 0 < cone_length f4_reverse_taper
   /\ exists a, cone_angle_deg f4_reverse_taper = Ok a /\ a < 0).
Proof.
  split.
  - assert (H0 : cone_length f4_flush = 0) by (unfold cone_length; simpl; ring).
    destruct (f4_cone_angle_raises f4_flush H0) as [Ha Hs].
    split; [apply f4_flush_widgets_ok |].
    split; [exact H0 |]. split; assumption.
  - split; [apply f4_reverse_taper_widgets_ok |].
    assert (Hlen : cone_length f4_reverse_taper = 10)
      by (unfold cone_length; simpl; ring).
    split; [rewrite Hlen; lra |].
    unfold cone_angle_deg, cone_angle_rad. rewrite Hlen.
    rewrite truediv_ok by lra. simpl.
    eexists; split; [reflexivity |].
    apply degrees_neg, arctan_neg. unfold cone_radius; simpl. lra.
Qed.

End Final4_cone_angle.

(** ** Expansion *)

(** C2 as stated fails on [die_designer_final_4.py] line 46: the division by
    the pellet size is not guarded there, so a pellet size of 0 raises
    instead of giving 0. *)
Lemma f4_expansion_unguarded :
  DieDesignerFinal4.pellet_size f4_no_pellet <= 0
  /\ DieDesignerFinal4.expansion f4_no_pellet = Raise ZeroDivisionError
  /\ DieDesignerFinal4.expansion f4_no_pellet <> Ok 0.
Proof.
  assert (H : DieDesignerFinal4.expansion f4_no_pellet = Raise ZeroDivisionError).
  { unfold DieDesignerFinal4.expansion; simpl. rewrite truediv_zero. reflexivity. }
  split; [simpl; lra |]. split; [exact H |]. rewrite H. discriminate.
Qed.

(** C2, amended.  With a positive pellet size both scripts return
    [(1 - finalDiameter / pelletSize) * 100].  Without one,
    [die_perforation_6.py] returns 0 and does not raise, whereas
    [die_designer_final_4.py], whose slider starts at 0.3, has no guard: it
    raises [ZeroDivisionError] at 0 and evaluates the same formula below 0. *)
Theorem expansion_spec :
  (forall inp : DiePerforation6.Inputs,
     (0 < DiePerforation6.pellet_size inp ->
      DiePerforation6.expansion inp
      = (1 - DiePerforation6.final_diameter inp / DiePerforation6.pellet_size inp)
        * 100)
     /\ (DiePerforation6.pellet_size inp <= 0 -> DiePerforation6.expansion inp = 0))
  /\
  (forall inp : DieDesignerFinal4.Inputs,
     (DieDesignerFinal4.pellet_size inp <> 0 ->
      DieDesignerFinal4.expansion inp
      = Ok ((1 - DieDesignerFinal4.final_diameter inp
                 / DieDesignerFinal4.pellet_size inp) * 100))
     /\ (DieDesignerFinal4.pellet_size inp = 0 ->
         DieDesignerFinal4.expansion inp = Raise ZeroDivisionError)).
Proof.
  split; intro inp; split.
  - intro Hp. unfold DiePerforation6.expansion.
    destruct (Rlt_dec 0 (DiePerforation6.pellet_size inp)); [reflexivity | contradiction].
  - intro Hp. unfold DiePerforation6.expansion.
    destruct (Rlt_dec 0 (DiePerforation6.pellet_size inp)); [lra | reflexivity].
  - intro Hp. unfold DieDesignerFinal4.expansion.
    rewrite truediv_ok by assumption. reflexivity.
  - intro Hp. unfold DieDesignerFinal4.expansion.
    rewrite Hp, truediv_zero. reflexivity.
Qed.

(** Pellet size 5 and final diameter 10 give exactly -100. *)
Lemma expansion_spec_witness :
  0 < DiePerforation6.pellet_size p6_pellet5_final10
  /\ DiePerforation6.expansion p6_pellet5_final10 = -100.
Proof.
  assert (Hp : 0 < DiePerforation6.pellet_size p6_pellet5_final10) by (simpl; lra).
  split; [exact Hp |].
  rewrite (proj1 (proj1 expansion_spec p6_pellet5_final10) Hp). simpl. lra.
Defined.

(** ** Open area per tonne *)

(** C3 as stated fails: no script guards the division by the throughput.
    A throughput of 0 raises, a negative one gives a negative quotient. *)
Lemma p6_throughput_unguarded :
  (DiePerforation6.dry_meal_throughput p6_no_throughput <= 0
   /\ DiePerforation6.open_area_per_tonne p6_no_throughput
      = Raise ZeroDivisionError)
  /\
  (DiePerforation6.dry_meal_throughput p6_negative_throughput <= 0
   /\ exists v, DiePerforation6.open_area_per_tonne p6_negative_throughput = Ok v
                /\ v < 0).
Proof.
  split; (split; [simpl; lra |]).
  - unfold DiePerforation6.open_area_per_tonne; simpl. apply truediv_zero.
  - unfold DiePerforation6.open_area_per_tonne; simpl.
    rewrite truediv_ok by lra. eexists; split; [reflexivity |].
    unfold DiePerforation6.total_open_area, DiePerforation6.open_area_one_hole,
      Np.pi; simpl.
    pose proof PI_RGT_0. nra.
Qed.

(** C3, amended.  With a throughput other than 0 (in particular a positive
    one) both scripts return
    [pi * (finalDiameter / 2)^2 * totalHoles / dryMealThroughput]; the
    division is not guarded, and a throughput of 0, which no widget
    delivers, raises [ZeroDivisionError]. *)
Theorem open_area_per_tonne_spec :
  (forall inp : DiePerforation6.Inputs,
     (DiePerforation6.dry_meal_throughput inp <> 0 ->
      DiePerforation6.open_area_per_tonne inp
      = Ok (PI * (DiePerforation6.final_diameter inp / 2) ^ 2
            * IZR (DiePerforation6.total_holes inp)
            / DiePerforation6.dry_meal_throughput inp))
     /\ (DiePerforation6.dry_meal_throughput inp = 0 ->
         DiePerforation6.open_area_per_tonne inp = Raise ZeroDivisionError))
  /\
  (forall inp : DieDesignerFinal4.Inputs,
     (DieDesignerFinal4.dry_meal_throughput inp <> 0 ->
      DieDesignerFinal4.open_area_per_tonne inp
      = Ok (PI * (DieDesignerFinal4.final_diameter inp / 2) ^ 2
            * IZR (DieDesignerFinal4.total_holes inp)
            / DieDesignerFinal4.dry_meal_throughput inp))
     /\ (DieDesignerFinal4.dry_meal_throughput inp = 0 ->
         DieDesignerFinal4.open_area_per_tonne inp = Raise ZeroDivisionError)).
Proof.
  split; intro inp; split; intro Ht.
  - unfold DiePerforation6.open_area_per_tonne. now rewrite truediv_ok.
  - unfold DiePerforation6.open_area_per_tonne. rewrite Ht. apply truediv_zero.
  - unfold DieDesignerFinal4.open_area_per_tonne. now rewrite truediv_ok.
  - unfold DieDesignerFinal4.open_area_per_tonne. rewrite Ht. apply truediv_zero.
Qed.

(** 100 holes of diameter 3 at 10 t/h: [pi * 1.5^2 * 100 / 10]. *)
Lemma open_area_per_tonne_spec_witness :
  DiePerforation6.dry_meal_throughput p6_default <> 0
  /\ DiePerforation6.open_area_per_tonne p6_default = Ok (PI * (3 / 2) ^ 2 * 100 / 10).
Proof.
  assert (Ht : DiePerforation6.dry_meal_throughput p6_default <> 0) by (simpl; lra).
  split; [exact Ht |].
  exact (proj1 (proj1 open_area_per_tonne_spec p6_default) Ht).
Defined.

(** ** Holes per row and the spacing of the holes of a row *)

Section Perforation6_rows.
Import DiePerforation6.

Lemma range_length (n : Z) : length (Py.range n) = Z.to_nat n.
Proof. unfold Py.range. apply length_seq. Qed.

Lemma pcd_values_length (inp : Inputs) :
  length (pcd_values inp) = Z.to_nat (number_of_rows inp).
Proof. unfold pcd_values. now rewrite length_map, range_length. Qed.

Lemma ring_row_length (inp : Inputs) (radius : R) (hpr : Z) :
  length (ring_row inp radius hpr) = Z.to_nat hpr.
Proof. unfold ring_row. now rewrite length_map, range_length. Qed.

Lemma ring_rows_uniform (inp : Inputs) (hpr : Z) :
  Forall (fun row => length row = Z.to_nat hpr) (ring_rows inp hpr).
Proof.
  unfold ring_rows. apply Forall_map, Forall_forall. intros pcd _.
  apply ring_row_length.
Qed.

Lemma concat_uniform_length {A : Type} (n : nat) (ll : list (list A)) :
  Forall (fun l => length l = n) ll ->
  length (concat ll) = (length ll * n)%nat.
Proof.
  induction 1 as [| l ll Hl _ IH]; simpl.
  - reflexivity.
  - now rewrite length_app, Hl, IH.
Qed.

Lemma ring_patches_length (inp : Inputs) (hpr : Z) :
  length (ring_patches inp hpr)
  = (Z.to_nat (number_of_rows inp) * Z.to_nat hpr)%nat.
Proof.
  unfold ring_patches.
  rewrite (concat_uniform_length (Z.to_nat hpr)) by apply ring_rows_uniform.
  unfold ring_rows. now rewrite length_map, pcd_values_length.
Qed.

Lemma holes_per_row_quotient (inp : Inputs) :
  (1 <= total_holes inp)%Z ->
  (1 <= number_of_rows inp)%Z ->
  holes_per_row inp = Ok (total_holes inp / number_of_rows inp)%Z.
Proof.
  intros Hth Hnr. unfold holes_per_row, Py.int_truediv.
  destruct (Z.eqb_spec (number_of_rows inp) 0) as [H0 | _]; [lia |].
  f_equal. apply Z.quot_div_nonneg; lia.
Qed.

(** C4.  With at least one hole and one row, [holes_per_row] is the floor of
    [totalHoles / numberOfRows]; every row of the ring layout gets that many
    holes, so that [numberOfRows * floor(totalHoles / numberOfRows)] holes
    are drawn: the remainder [totalHoles mod numberOfRows] is dropped. *)
Theorem holes_per_row_floor (inp : Inputs) :
  (1 <= total_holes inp)%Z ->
  (1 <= number_of_rows inp)%Z ->
  let q := (total_holes inp / number_of_rows inp)%Z in
  holes_per_row inp = Ok q
  /\ length (ring_rows inp q) = Z.to_nat (number_of_rows inp)
  /\ Forall (fun row => length row = Z.to_nat q) (ring_rows inp q)
  /\ Z.of_nat (length (ring_patches inp q)) = (number_of_rows inp * q)%Z
  /\ (number_of_rows inp * q
      = total_holes inp - total_holes inp mod number_of_rows inp)%Z
  /\ (number_of_rows inp * q <= total_holes inp)%Z.
Proof.
  intros Hth Hnr q.
  assert (Hq : (0 <= q)%Z) by (apply Z.div_pos; lia).
  split; [now apply holes_per_row_quotient |].
  split.
  { unfold ring_rows. now rewrite length_map, pcd_values_length. }
  split; [apply ring_rows_uniform |].
  split.
  { rewrite ring_patches_length. lia. }
  pose proof (Z.div_mod (total_holes inp) (number_of_rows inp)) as Hdm.
  pose proof (Z.mod_pos_bound (total_holes inp) (number_of_rows inp)) as Hmod.
  fold q in Hdm. split; lia.
Qed.

(** Seven holes on three rows: two per row, six drawn. *)
Lemma holes_per_row_floor_witness :
  (1 <= total_holes p6_seven_on_three)%Z
  /\ (1 <= number_of_rows p6_seven_on_three)%Z
  /\ holes_per_row p6_seven_on_three = Ok 2%Z
  /\ length (ring_patches p6_seven_on_three 2) = 6%nat.
Proof.
  assert (H1 : (1 <= total_holes p6_seven_on_three)%Z) by (simpl; lia).
  assert (H2 : (1 <= number_of_rows p6_seven_on_three)%Z) by (simpl; lia).
  destruct (holes_per_row_floor p6_seven_on_three H1 H2) as (Hq & _ & _ & Hn & _).
  split; [exact H1 |]. split; [exact H2 |]. split; [exact Hq |].
  apply Nat2Z.inj. exact Hn.
Defined.

Lemma spacing_loop_spec (inp : Inputs) (hpr : Z) (pcds acc : list R) :
  IZR hpr <> 0 ->
  spacing_loop inp hpr pcds acc
  = Ok (acc ++ map (fun pcd => 2 * PI * (pcd / 2) / IZR hpr - final_diameter inp)
                   pcds).
Proof.
  intro Hh. revert acc.
  induction pcds as [| pcd rest IH]; intro acc; simpl.
  - now rewrite app_nil_r.
  - rewrite truediv_ok by assumption. simpl.
    rewrite IH, <- app_assoc. reflexivity.
Qed.

Lemma spacing_loop_zero (inp : Inputs) (pcd : R) (rest acc : list R) :
  spacing_loop inp 0 (pcd :: rest) acc = Raise ZeroDivisionError.
Proof. simpl. now rewrite truediv_zero. Qed.

(** C5.  With [holesPerRow >= 1] the spacing list is returned; it has one
    entry per row, in the order of the rows, and the entry of a row with
    pitch circle diameter [pcd] is
    [2 * pi * (pcd / 2) / holesPerRow - finalDiameter].  Unless the
    throughput is 0, the outputs are returned with that list. *)
Theorem space_between_holes_spec (inp : Inputs) (hpr : Z) :
  holes_per_row inp = Ok hpr ->
  (1 <= hpr)%Z ->
  exists spaces,
    space_between_holes_list inp hpr = Ok spaces
    /\ length spaces = length (pcd_values inp)
    /\ (forall r pcd,
          nth_error (pcd_values inp) r = Some pcd ->
          nth_error spaces r
          = Some (2 * PI * (pcd / 2) / IZR hpr - final_diameter inp))
    /\ (dry_meal_throughput inp <> 0 ->
        exists m, calculated_outputs inp = Ok m
                  /\ m_holes_per_row m = hpr
                  /\ m_space_between_holes_list m = spaces).
Proof.
  intros Hhpr Hpos.
  assert (Hnz : IZR hpr <> 0).
  { apply not_0_IZR. lia. }
  eexists. split.
  { unfold space_between_holes_list. rewrite spacing_loop_spec by assumption.
    reflexivity. }
  simpl. split; [apply length_map |]. split.
  - intros r pcd Hr. rewrite nth_error_map, Hr. reflexivity.
  - intro Ht. unfold calculated_outputs. rewrite Hhpr. simpl.
    unfold open_area_per_tonne. rewrite truediv_ok by assumption. simpl.
    unfold space_between_holes_list. rewrite spacing_loop_spec by assumption.
    simpl. eexists. split; [reflexivity |]. split; reflexivity.
Qed.

(** The defaults: 100 holes on 5 rows of pitch circle diameter 100. *)
Lemma space_between_holes_spec_witness :
  holes_per_row p6_default = Ok 20%Z
  /\ (1 <= 20)%Z
  /\ exists spaces,
       space_between_holes_list p6_default 20 = Ok spaces
       /\ length spaces = 5%nat
       /\ nth_error spaces 0 = Some (2 * PI * (100 / 2) / 20 - 3).
Proof.
  assert (H1 : holes_per_row p6_default = Ok 20%Z) by reflexivity.
  assert (H2 : (1 <= 20)%Z) by lia.
  split; [exact H1 |]. split; [exact H2 |].
  destruct (space_between_holes_spec p6_default 20 H1 H2)
    as (spaces & Hs & Hlen & Hnth & _).
  exists spaces. split; [exact Hs |]. split; [exact Hlen |].
  exact (Hnth 0%nat 100 eq_refl).
Defined.

End Perforation6_rows.

(** ** Divisions by zero and by negative numbers *)

Section Perforation6_divisors.
Import DiePerforation6.

Lemma script_raises (inp : Inputs) (e : exn) :
  calculated_outputs inp = Raise e -> script inp = Raise e.
Proof. intro H. unfold script. now rewrite H. Qed.

Lemma holes_per_row_zero (inp : Inputs) :
  (1 <= total_holes inp < number_of_rows inp)%Z ->
  holes_per_row inp = Ok 0%Z.
Proof.
  intros [Hlo Hhi]. unfold holes_per_row, Py.int_truediv.
  destruct (Z.eqb_spec (number_of_rows inp) 0) as [H0 | _]; [lia |].
  f_equal. apply Z.quot_small. lia.
Qed.

Lemma calculated_outputs_zero_divisor (inp : Inputs) :
  (number_of_rows inp = 0)%Z
  \/ dry_meal_throughput inp = 0
  \/ (holes_per_row inp = Ok 0%Z /\ (1 <= number_of_rows inp)%Z) ->
  calculated_outputs inp = Raise ZeroDivisionError.
Proof.
  unfold calculated_outputs. intros [Hnr | [Ht | [Hh Hnr]]].
  - unfold holes_per_row, Py.int_truediv. rewrite Hnr. reflexivity.
  - destruct (holes_per_row inp) as [hpr | []]; simpl; [| reflexivity].
    unfold open_area_per_tonne. rewrite Ht, truediv_zero. reflexivity.
  - rewrite Hh. simpl.
    destruct (open_area_per_tonne inp) as [oapt | []]; simpl; [| reflexivity].
    unfold space_between_holes_list.
    pose proof (pcd_values_length inp) as Hlen.
    destruct (pcd_values inp) as [| pcd rest].
    + simpl in Hlen. lia.
    + rewrite spacing_loop_zero. reflexivity.
Qed.

(** C6 as stated fails: a negative divisor is not rejected.  With a
    throughput of -10 the script runs to its end. *)
Lemma p6_negative_divisor_not_rejected :
  dry_meal_throughput p6_negative_throughput < 0
  /\ returns (script p6_negative_throughput)
  /\ ~ raises (script p6_negative_throughput).
Proof.
  assert (Hr : returns (script p6_negative_throughput)).
  { unfold returns, script, calculated_outputs.
    change (holes_per_row p6_negative_throughput) with (@Ok Z 20%Z). simpl.
    unfold open_area_per_tonne. rewrite truediv_ok by (simpl; lra). simpl.
    unfold space_between_holes_list.
    rewrite spacing_loop_spec by (apply not_0_IZR; lia). simpl.
    eexists. reflexivity. }
  split; [simpl; lra |]. split; [exact Hr |].
  destruct Hr as [a Ha]. intros [e He]. rewrite Ha in He. discriminate.
Qed.

(** C6, amended.  A zero divisor of an unguarded division (no row, a
    throughput of 0, or [holesPerRow = 0] with at least one row, which is the
    case whenever [1 <= totalHoles < numberOfRows]) aborts
    [die_perforation_6.py] with Python's [ZeroDivisionError], the only error
    there is: no output and no figure is produced.  A negative divisor is
    not rejected: with a negative throughput and at least as many holes as
    rows the script runs to its end. *)
Theorem zero_divisor_raises (inp : Inputs) :
  ((number_of_rows inp = 0)%Z
   \/ dry_meal_throughput inp = 0
   \/ (holes_per_row inp = Ok 0%Z /\ (1 <= number_of_rows inp)%Z) ->
   calculated_outputs inp = Raise ZeroDivisionError
   /\ script inp = Raise ZeroDivisionError)
  /\
  ((1 <= total_holes inp < number_of_rows inp)%Z ->
   holes_per_row inp = Ok 0%Z
   /\ script inp = Raise ZeroDivisionError)
  /\
  (dry_meal_throughput inp < 0 ->
   (1 <= number_of_rows inp <= total_holes inp)%Z ->
   exists m figs, script inp = Ok (m, figs) /\ m_open_area_per_tonne m <= 0).
Proof.
  split; [| split].
  - intro H. pose proof (calculated_outputs_zero_divisor inp H) as Hc.
    split; [exact Hc | now apply script_raises].
  - intro H. pose proof (holes_per_row_zero inp H) as Hh.
    split; [exact Hh |].
    apply script_raises, calculated_outputs_zero_divisor.
    right; right. split; [exact Hh | lia].
  - intros Ht Hrows.
    assert (Hq : holes_per_row inp
                 = Ok (total_holes inp / number_of_rows inp)%Z)
      by (apply holes_per_row_quotient; lia).
    assert (Hq1 : (1 <= total_holes inp / number_of_rows inp)%Z).
    { apply Z.div_le_lower_bound; lia. }
    unfold script, calculated_outputs. rewrite Hq. simpl.
    unfold open_area_per_tonne. rewrite truediv_ok by lra. simpl.
    unfold space_between_holes_list.
    rewrite spacing_loop_spec by (apply not_0_IZR; lia). simpl.
    do 2 eexists. split; [reflexivity |]. simpl.
    assert (Ha : 0 <= total_open_area inp).
    { unfold total_open_area, open_area_one_hole, Np.pi.
      apply Rmult_le_pos.
      - apply Rmult_le_pos; [left; apply PI_RGT_0 | apply pow2_ge_0].
      - apply IZR_le. lia. }
    assert (Hi : / dry_meal_throughput inp < 0) by now apply Rinv_lt_0_compat.
    unfold Rdiv. nra.
Qed.

Lemma p6_three_on_five_widgets_ok : widgets_ok p6_three_on_five.
Proof.
  unfold widgets_ok, p6_three_on_five; simpl.
  rewrite channel_max_20 by lra.
  repeat split; try lia; try lra.
  - exists 27%nat; rewrite INR_IZR_INZ; simpl; lra.
  - exists 38%nat; rewrite INR_IZR_INZ; simpl; lra.
  - exists 54%nat; rewrite INR_IZR_INZ; simpl; lra.
  - exists 114%nat; rewrite INR_IZR_INZ; simpl; lra.
  - exists 49%nat; rewrite INR_IZR_INZ; simpl; lra.
  - exists 50%nat; rewrite INR_IZR_INZ; simpl; lra.
Qed.

(** Three holes asked for on five rows, a setting within the widgets'
    ranges: no hole per row, and the spacing of the first row divides by
    zero. *)
Lemma zero_divisor_raises_witness :
  widgets_ok p6_three_on_five
  /\ (1 <= total_holes p6_three_on_five < number_of_rows p6_three_on_five)%Z
  /\ holes_per_row p6_three_on_five = Ok 0%Z
  /\ script p6_three_on_five = Raise ZeroDivisionError.
Proof.
  assert (H : (1 <= total_holes p6_three_on_five
               < number_of_rows p6_three_on_five)%Z) by (simpl; lia).
  split; [apply p6_three_on_five_widgets_ok |]. split; [exact H |].
  exact (proj1 (proj2 (zero_divisor_raises p6_three_on_five)) H).
Defined.

End Perforation6_divisors.

(** ** The surface of revolution *)

Lemma linspace_length (start stop : R) (num : nat) :
  length (Np.linspace start stop num) = num.
Proof. unfold Np.linspace. now rewrite length_map, length_seq. Qed.

Lemma linspace_nth (start stop : R) (num i : nat) :
  (i < num)%nat ->
  nth_error (Np.linspace start stop num) i
  = Some (start + INR i * ((stop - start) / INR (num - 1))).
Proof.
  intro Hi. unfold Np.linspace.
  rewrite nth_error_map, nth_error_seq.
  destruct (Nat.ltb_spec i num); [reflexivity | lia].
Qed.

(** The samples of [linspace(0, stop, 30)] lie between 0 and [stop]. *)
Lemma linspace_30_bounds (stop : R) :
  0 <= stop ->
  Forall (fun z => 0 <= z <= stop) (Np.linspace 0 stop 30).
Proof.
  intro Hs. unfold Np.linspace. apply Forall_forall. intros z Hz.
  apply in_map_iff in Hz. destruct Hz as (i & <- & Hi).
  apply in_seq in Hi.
  assert (H29 : INR (30 - 1) = 29) by (rewrite INR_IZR_INZ; reflexivity).
  rewrite H29.
  assert (H0 : 0 <= INR i) by apply pos_INR.
  assert (Hle : INR i <= 29).
  { rewrite <- H29. apply le_INR. lia. }
  replace (0 + INR i * ((stop - 0) / 29)) with (INR i * stop / 29) by (field; lra).
  split.
  - apply Rmult_le_pos; [now apply Rmult_le_pos | lra].
  - apply Rmult_le_reg_r with (r := 29); [lra |].
    replace (INR i * stop / 29 * 29) with (INR i * stop) by (field; lra).
    nra.
Qed.

Lemma map_constant_repeat {A B : Type} (b : B) (l : list A) :
  map (fun _ => b) l = repeat b (length l).
Proof.
  induction l as [| x l IH]; simpl; [reflexivity | now rewrite IH].
Qed.

Lemma full_like_repeat {A : Type} (a : list A) (v : R) :
  Np.full_like a v = repeat v (length a).
Proof. apply map_constant_repeat. Qed.

(** A constant column times a grid of equal rows. *)
Lemma column_times_constant {A : Type} (a : list A) (v : R) (row : list R) :
  Np.column_times (map (fun _ => v) a) (map (fun _ => row) a)
  = map (fun _ => map (fun x => v * x) row) a.
Proof.
  unfold Np.column_times. induction a as [| x a IH]; simpl; [reflexivity |].
  now rewrite IH.
Qed.

Lemma meshgrid_fst (x y : list R) :
  fst (Np.meshgrid x y) = map (fun _ => x) y.
Proof. reflexivity. Qed.

Section Perforation6_mesh.
Import DiePerforation6.

(** C7, on [die_perforation_6.py], lines 104-118.  With a positive cone
    length the 30 depth samples lie in [[0, coneLength]] and the cone radius at
    the sample [z] is
    [coneDiameter/2 - (coneDiameter - finalDiameter)/2 * (z/coneLength)];
    otherwise the cone radius is [finalDiameter/2] at all 30 samples.  The
    channel radius is [finalDiameter/2] at all 10 depth samples, and every
    point of the channel surface is
    [(finalDiameter/2 * cos t, finalDiameter/2 * sin t)] for its angle sample
    [t]. *)
Theorem p6_revolution_radius_spec (inp : Inputs) :
  (0 < cone_length inp ->
   length (z_cone inp) = 30%nat
   /\ Forall (fun z => 0 <= z <= cone_length inp) (z_cone inp)
   /\ r_cone inp
      = map (fun z => cone_diameter inp / 2
                      - (cone_diameter inp - final_diameter inp) / 2
                        * (z / cone_length inp))
            (z_cone inp))
  /\ (cone_length inp <= 0 -> r_cone inp = repeat (final_diameter inp / 2) 30)
  /\ r_channel inp = repeat (final_diameter inp / 2) 10
  /\ x_channel inp
     = repeat (map (fun t => final_diameter inp / 2 * cos t) theta) 10
  /\ y_channel inp
     = repeat (map (fun t => final_diameter inp / 2 * sin t) theta) 10.
Proof.
  assert (Hzc : length (z_cone inp) = 30%nat) by apply linspace_length.
  assert (Hzch : length (z_channel inp) = 10%nat) by apply linspace_length.
  split; [| split; [| split; [| split]]].
  - intro Hlen. split; [exact Hzc |]. split.
    + apply linspace_30_bounds. lra.
    + unfold r_cone.
      destruct (Rlt_dec 0 (cone_length inp)); [reflexivity | contradiction].
  - intro Hlen. unfold r_cone.
    destruct (Rlt_dec 0 (cone_length inp)); [lra |].
    now rewrite full_like_repeat, Hzc.
  - unfold r_channel. now rewrite full_like_repeat, Hzch.
  - unfold x_channel, r_channel, theta_grid2, Np.full_like.
    rewrite meshgrid_fst, map_map, column_times_constant, map_map.
    now rewrite map_constant_repeat, Hzch.
  - unfold y_channel, r_channel, theta_grid2, Np.full_like.
    rewrite meshgrid_fst, map_map, column_times_constant, map_map.
    now rewrite map_constant_repeat, Hzch.
Qed.

(** The defaults have a cone of length 15; with the channel as long as the
    plate is thick the cone length is 0 and the cone radius is 1.5, half the
    final diameter, at all 30 depth samples. *)
Lemma p6_revolution_radius_spec_witness :
  0 < cone_length p6_default
  /\ length (z_cone p6_default) = 30%nat
  /\ Forall (fun z => 0 <= z <= 20 - 5) (z_cone p6_default)
  /\ cone_length p6_flush <= 0
  /\ r_cone p6_flush = repeat (3 / 2) 30.
Proof.
  assert (H1 : 0 < cone_length p6_default) by (unfold cone_length; simpl; lra).
  assert (H2 : cone_length p6_flush <= 0) by (unfold cone_length; simpl; lra).
  destruct (proj1 (p6_revolution_radius_spec p6_default) H1) as (Hlen & Hz & _).
  split; [exact H1 |]. split; [exact Hlen |]. split; [exact Hz |].
  split; [exact H2 |].
  exact (proj1 (proj2 (p6_revolution_radius_spec p6_flush)) H2).
Defined.

End Perforation6_mesh.


(** ** The ring layout *)

Lemma range_nth (n : Z) (i : nat) :
  (i < Z.to_nat n)%nat -> nth_error (Py.range n) i = Some i.
Proof.
  intro Hi. unfold Py.range. rewrite nth_error_seq.
  destruct (Nat.ltb_spec i (Z.to_nat n)); [reflexivity | lia].
Qed.

(** A point at polar angle [a] on the circle of radius [r]. *)
Lemma on_circle_sqr (r a : R) : (r * cos a) ^ 2 + (r * sin a) ^ 2 = r ^ 2.
Proof.
  pose proof (sin2_cos2 a) as H. unfold Rsqr in H.
  replace ((r * cos a) ^ 2 + (r * sin a) ^ 2)
    with (r ^ 2 * (sin a * sin a + cos a * cos a)) by ring.
  rewrite H. ring.
Qed.

Lemma on_circle_distance (r a : R) :
  0 <= r -> sqrt ((r * cos a) ^ 2 + (r * sin a) ^ 2) = r.
Proof.
  intro Hr. rewrite on_circle_sqr. now apply sqrt_pow2.
Qed.

Lemma angle_step (n : Z) (i : nat) :
  (1 <= n)%Z ->
  2 * PI * INR (S i) / IZR n = 2 * PI * INR i / IZR n + 2 * PI / IZR n.
Proof.
  intro Hn. rewrite S_INR. field. apply not_0_IZR. lia.
Qed.

Lemma p6_ring_row_nth (inp : DiePerforation6.Inputs) (radius : R) (n : Z) (i : nat) :
  (i < Z.to_nat n)%nat ->
  nth_error (DiePerforation6.ring_row inp radius n) i
  = Some (mkCircle (radius * cos (2 * PI * INR i / IZR n))
                   (radius * sin (2 * PI * INR i / IZR n))
                   (DiePerforation6.final_diameter inp / 2)).
Proof.
  intro Hi. unfold DiePerforation6.ring_row.
  rewrite nth_error_map, range_nth by assumption. reflexivity.
Qed.

Lemma f4_ring_row_nth (inp : DieDesignerFinal4.Inputs) (radius : R) (n : Z) (i : nat) :
  (i < Z.to_nat n)%nat ->
  nth_error (DieDesignerFinal4.ring_row inp radius n) i
  = Some (mkCircle (radius * cos (2 * PI * INR i / IZR n))
                   (radius * sin (2 * PI * INR i / IZR n))
                   (DieDesignerFinal4.final_diameter inp / 2)).
Proof.
  intro Hi. unfold DieDesignerFinal4.ring_row.
  rewrite nth_error_map, range_nth by assumption. reflexivity.
Qed.

Lemma f4_lists_length (inp : DieDesignerFinal4.Inputs) :
  length (DieDesignerFinal4.pcd_values inp)
  = Z.to_nat (DieDesignerFinal4.number_of_rows inp)
  /\ length (DieDesignerFinal4.holes_per_row_list inp)
     = Z.to_nat (DieDesignerFinal4.number_of_rows inp).
Proof.
  unfold DieDesignerFinal4.pcd_values, DieDesignerFinal4.holes_per_row_list.
  now rewrite !length_map, range_length.
Qed.

Lemma f4_ring_rows_nth (inp : DieDesignerFinal4.Inputs) (r : nat) (d : R) (n : Z) :
  nth_error (DieDesignerFinal4.pcd_values inp) r = Some d ->
  nth_error (DieDesignerFinal4.holes_per_row_list inp) r = Some n ->
  nth_error (DieDesignerFinal4.ring_rows inp) r
  = Some (DieDesignerFinal4.ring_row inp (d / 2) n).
Proof.
  intros Hd Hn.
  assert (Hr : (r < Z.to_nat (DieDesignerFinal4.number_of_rows inp))%nat).
  { rewrite <- (proj1 (f4_lists_length inp)). apply nth_error_Some. congruence. }
  unfold DieDesignerFinal4.ring_rows.
  rewrite nth_error_map, range_nth by assumption. simpl.
  now rewrite (nth_error_nth _ _ 0 Hd), (nth_error_nth _ _ 0%Z Hn).
Qed.

(** C8.  In [die_perforation_6.py] (every row has [holes_per_row] holes) and in
    [die_designer_final_4.py] (row [r] has [holes_per_row_list[r]] holes), the
    row with pitch circle diameter [d] and [n >= 1] holes consists of [n]
    circles, hole [i] centred at
    [((d/2) * cos(2*pi*i/n), (d/2) * sin(2*pi*i/n))].  Such a centre is at
    distance [d/2] from the origin; hole 0 is at angle 0, whatever the row;
    and hole [i+1] is hole [i] turned by [2*pi/n] about the origin. *)
Theorem ring_layout_spec :
  (forall (inp : DiePerforation6.Inputs) (hpr : Z) (r : nat) (d : R),
     (1 <= hpr)%Z ->
     nth_error (DiePerforation6.pcd_values inp) r = Some d ->
     exists row,
       nth_error (DiePerforation6.ring_rows inp hpr) r = Some row
       /\ length row = Z.to_nat hpr
       /\ forall i, (i < Z.to_nat hpr)%nat ->
            nth_error row i
            = Some (mkCircle (d / 2 * cos (2 * PI * INR i / IZR hpr))
                             (d / 2 * sin (2 * PI * INR i / IZR hpr))
                             (DiePerforation6.final_diameter inp / 2)))
  /\
  (forall (inp : DieDesignerFinal4.Inputs) (r : nat) (d : R) (n : Z),
     (1 <= n)%Z ->
     nth_error (DieDesignerFinal4.pcd_values inp) r = Some d ->
     nth_error (DieDesignerFinal4.holes_per_row_list inp) r = Some n ->
     exists row,
       nth_error (DieDesignerFinal4.ring_rows inp) r = Some row
       /\ length row = Z.to_nat n
       /\ forall i, (i < Z.to_nat n)%nat ->
            nth_error row i
            = Some (mkCircle (d / 2 * cos (2 * PI * INR i / IZR n))
                             (d / 2 * sin (2 * PI * INR i / IZR n))
                             (DieDesignerFinal4.final_diameter inp / 2)))
  /\
  (forall (d hole_r : R) (n : Z),
     (1 <= n)%Z ->
     let hole := fun i : nat =>
       mkCircle (d / 2 * cos (2 * PI * INR i / IZR n))
                (d / 2 * sin (2 * PI * INR i / IZR n)) hole_r in
     hole 0%nat = mkCircle (d / 2) 0 hole_r
     /\ forall i,
          circle_x (hole i) ^ 2 + circle_y (hole i) ^ 2 = (d / 2) ^ 2
          /\ (0 <= d ->
              sqrt (circle_x (hole i) ^ 2 + circle_y (hole i) ^ 2) = d / 2)
          /\ circle_x (hole (S i))
             = circle_x (hole i) * cos (2 * PI / IZR n)
               - circle_y (hole i) * sin (2 * PI / IZR n)
          /\ circle_y (hole (S i))
             = circle_x (hole i) * sin (2 * PI / IZR n)
               + circle_y (hole i) * cos (2 * PI / IZR n)).
Proof.
  split; [| split].
  - intros inp hpr r d Hh Hd. eexists. split.
    + unfold DiePerforation6.ring_rows. rewrite nth_error_map, Hd. reflexivity.
    + simpl. split.
      * unfold DiePerforation6.ring_row. now rewrite length_map, range_length.
      * intros i Hi. now apply p6_ring_row_nth.
  - intros inp r d n Hn Hd Hl. eexists. split.
    + exact (f4_ring_rows_nth inp r d n Hd Hl).
    + split.
      * unfold DieDesignerFinal4.ring_row. now rewrite length_map, range_length.
      * intros i Hi. now apply f4_ring_row_nth.
  - intros d hole_r n Hn hole. split.
    + unfold hole. simpl INR.
      replace (2 * PI * 0 / IZR n) with 0 by (unfold Rdiv; ring).
      rewrite cos_0, sin_0. f_equal; ring.
    + intro i. unfold hole. cbn [circle_x circle_y].
      split; [apply on_circle_sqr |].
      split; [intro Hd; apply on_circle_distance; lra |].
      rewrite (angle_step n i Hn), cos_plus, sin_plus. split; ring.
Qed.

(** One row of 10 holes on the pitch circle of diameter 100: hole 1 is at
    angle [2*pi/10], that is 36 degrees, on the circle of radius 50. *)
Lemma ring_layout_spec_witness :
  (1 <= 10)%Z
  /\ nth_error (DieDesignerFinal4.pcd_values f4_default) 0 = Some 100
  /\ nth_error (DieDesignerFinal4.holes_per_row_list f4_default) 0 = Some 10%Z
  /\ exists row,
       nth_error (DieDesignerFinal4.ring_rows f4_default) 0 = Some row
       /\ length row = 10%nat
       /\ nth_error row 1
          = Some (mkCircle (100 / 2 * cos (2 * PI * 1 / 10))
                           (100 / 2 * sin (2 * PI * 1 / 10))
                           (10 / 2)).
Proof.
  assert (H1 : (1 <= 10)%Z) by lia.
  split; [exact H1 |]. split; [reflexivity |]. split; [reflexivity |].
  destruct (proj1 (proj2 ring_layout_spec) f4_default 0%nat 100 10%Z H1
              eq_refl eq_refl) as (row & Hrow & Hlen & Hnth).
  exists row. split; [exact Hrow |]. split; [exact Hlen |].
  apply (Hnth 1%nat). simpl. lia.
Defined.

(** ** The 2D profile *)

(** C9.  In [die_perforation_6.py] and in [die_designer_final_4.py] the
    profile is the closed polygon with the six vertices
    [(-coneDiameter/2, 0)], [(-finalDiameter/2, coneLength)],
    [(-finalDiameter/2, plateThickness)], [(finalDiameter/2, plateThickness)],
    [(finalDiameter/2, coneLength)], [(coneDiameter/2, 0)] in this order, where
    [coneLength = plateThickness - channelLength], together with the
    rectangle of origin [(-finalDiameter/2, coneLength)], width
    [finalDiameter] and height [channelLength]. *)
Theorem profile_spec :
  (forall inp : DiePerforation6.Inputs,
     let cd := DiePerforation6.cone_diameter inp in
     let fd := DiePerforation6.final_diameter inp in
     let pt := DiePerforation6.plate_thickness inp in
     let coneLength := pt - DiePerforation6.channel_length inp in
     DiePerforation6.cone_length inp = coneLength
     /\ poly_xy (DiePerforation6.cone_patch inp)
        = [ (- cd / 2, 0); (- fd / 2, coneLength); (- fd / 2, pt);
            (fd / 2, pt); (fd / 2, coneLength); (cd / 2, 0) ]
     /\ poly_closed (DiePerforation6.cone_patch inp) = true
     /\ DiePerforation6.channel_patch inp
        = mkRectangle (- fd / 2, coneLength) fd
                      (DiePerforation6.channel_length inp))
  /\
  (forall inp : DieDesignerFinal4.Inputs,
     let cd := DieDesignerFinal4.cone_diameter inp in
     let fd := DieDesignerFinal4.final_diameter inp in
     let pt := DieDesignerFinal4.plate_thickness inp in
     let coneLength := pt - DieDesignerFinal4.channel_length inp in
     DieDesignerFinal4.cone_length inp = coneLength
     /\ poly_xy (DieDesignerFinal4.cone inp)
        = [ (- cd / 2, 0); (- fd / 2, coneLength); (- fd / 2, pt);
            (fd / 2, pt); (fd / 2, coneLength); (cd / 2, 0) ]
     /\ poly_closed (DieDesignerFinal4.cone inp) = true
     /\ DieDesignerFinal4.channel inp
        = mkRectangle (- fd / 2, coneLength) fd
                      (DieDesignerFinal4.channel_length inp)).
Proof.
  split; intro inp; repeat split.
Qed.

(** ** The gap between rows *)

Section Sorting.

Lemma insert_perm (x : R) (l : list R) : Permutation (x :: l) (Py.insert x l).
Proof.
  induction l as [| y t IH]; simpl.
  - apply Permutation_refl.
  - destruct (Rlt_dec x y).
    + apply Permutation_refl.
    + apply perm_trans with (y :: x :: t); [apply perm_swap |].
      now apply perm_skip.
Qed.

Lemma insert_sorted (x : R) (l : list R) :
  StronglySorted Rle l -> StronglySorted Rle (Py.insert x l).
Proof.
  induction 1 as [| y t Hs IH Hy]; simpl.
  - constructor; constructor.
  - destruct (Rlt_dec x y) as [Hlt | Hge].
    + constructor.
      * now constructor.
      * constructor; [lra |].
        apply Forall_impl with (P := Rle y); [| assumption].
        intros z Hz. lra.
    + constructor; [assumption |].
      eapply Permutation_Forall; [apply insert_perm |].
      constructor; [lra | assumption].
Qed.

Lemma sort_loop_perm (l acc : list R) :
  Permutation (l ++ acc) (fold_left (fun a x => Py.insert x a) l acc).
Proof.
  revert acc. induction l as [| x l IH]; intro acc; simpl.
  - apply Permutation_refl.
  - apply perm_trans with (l ++ Py.insert x acc); [| apply IH].
    apply perm_trans with (l ++ x :: acc).
    + apply Permutation_middle.
    + apply Permutation_app_head, insert_perm.
Qed.

Lemma sort_loop_sorted (l acc : list R) :
  StronglySorted Rle acc ->
  StronglySorted Rle (fold_left (fun a x => Py.insert x a) l acc).
Proof.
  revert acc. induction l as [| x l IH]; intros acc Hacc; simpl.
  - assumption.
  - apply IH. now apply insert_sorted.
Qed.

Lemma sorted_perm (l : list R) : Permutation l (Py.sorted l).
Proof.
  unfold Py.sorted. rewrite <- (app_nil_r l) at 1. apply sort_loop_perm.
Qed.

Lemma sorted_ascending (l : list R) : StronglySorted Rle (Py.sorted l).
Proof. unfold Py.sorted. apply sort_loop_sorted. constructor. Qed.

(** Two ascending lists with the same elements are the same list. *)
Lemma ascending_unique (l1 l2 : list R) :
  StronglySorted Rle l1 -> StronglySorted Rle l2 ->
  Permutation l1 l2 -> l1 = l2.
Proof.
  intro H1. revert l2.
  induction H1 as [| a t1 Hs1 IH Ha]; intros l2 H2 Hp.
  - apply Permutation_nil in Hp. now subst.
  - destruct H2 as [| b t2 Hs2 Hb].
    + apply Permutation_sym, Permutation_nil in Hp. discriminate.
    + assert (Hab : a = b).
      { assert (Hin1 : In a (b :: t2))
          by (apply (Permutation_in _ Hp); now left).
        assert (Hin2 : In b (a :: t1))
          by (apply (Permutation_in _ (Permutation_sym Hp)); now left).
        rewrite Forall_forall in Ha, Hb.
        destruct Hin1 as [-> | Hin1]; [reflexivity |].
        destruct Hin2 as [-> | Hin2]; [reflexivity |].
        apply Rle_antisym; [now apply Ha | now apply Hb]. }
      subst b. f_equal. apply IH; [assumption |].
      now apply Permutation_cons_inv with (a := a).
Qed.

Lemma sorted_of_perm (l1 l2 : list R) :
  Permutation l1 l2 -> Py.sorted l1 = Py.sorted l2.
Proof.
  intro Hp. apply ascending_unique; try apply sorted_ascending.
  apply perm_trans with l1; [apply Permutation_sym, sorted_perm |].
  apply perm_trans with l2; [assumption | apply sorted_perm].
Qed.

Lemma last_cons (a b : R) (l : list R) : last (b :: l) a = last l b.
Proof.
  revert a b. induction l as [| c l IH]; intros a b; [reflexivity |].
  change (last (b :: c :: l) a) with (last (c :: l) a).
  now rewrite (IH a c), (IH b c).
Qed.

(** The differences telescope. *)
Lemma sum_diff (a : R) (l : list R) :
  Np.sum (Np.diff (a :: l)) = last l a - a.
Proof.
  revert a. induction l as [| b l IH]; intro a.
  - simpl. ring.
  - change (Np.diff (a :: b :: l)) with ((b - a) :: Np.diff (b :: l)).
    change (Np.sum ((b - a) :: Np.diff (b :: l)))
      with ((b - a) + Np.sum (Np.diff (b :: l))).
    rewrite IH, last_cons. ring.
Qed.

Lemma diff_length (a : R) (l : list R) :
  length (Np.diff (a :: l)) = length l.
Proof.
  revert a. induction l as [| b l IH]; intro a; [reflexivity |].
  change (length (Np.diff (a :: b :: l))) with (S (length (Np.diff (b :: l)))).
  now rewrite IH.
Qed.

Lemma last_in (a : R) (l : list R) : In (last l a) (a :: l).
Proof.
  revert a. induction l as [| b l IH]; intro a.
  - now left.
  - right. rewrite last_cons. apply IH.
Qed.

Lemma ascending_last (a : R) (l : list R) :
  StronglySorted Rle (a :: l) -> Forall (fun x => x <= last l a) (a :: l).
Proof.
  revert a. induction l as [| b l IH]; intros a Hs.
  - constructor; [simpl; lra | constructor].
  - inversion Hs as [| ? ? Hs' Ha]; subst.
    rewrite last_cons.
    pose proof (IH b Hs') as Hb.
    constructor; [| exact Hb].
    inversion Hb; subst. inversion Ha; subst. lra.
Qed.

(** The mean of the consecutive differences of an ascending list: its
    extent over the number of gaps. *)
Lemma mean_diff_ascending (s : list R) (lo hi : R) :
  StronglySorted Rle s ->
  (2 <= length s)%nat ->
  In lo s -> In hi s -> (forall x, In x s -> lo <= x <= hi) ->
  Np.mean (Np.diff s) = (hi - lo) / (INR (length s) - 1).
Proof.
  intros Hs Hlen Hlo Hhi Hb.
  destruct s as [| a l]; [simpl in Hlen; lia |].
  unfold Np.mean. rewrite sum_diff, diff_length.
  assert (Ha : a = lo).
  { inversion Hs as [| ? ? _ Hall]; subst. rewrite Forall_forall in Hall.
    apply Rle_antisym.
    - destruct Hlo as [-> | Hlo]; [lra | now apply Hall].
    - apply Hb. now left. }
  assert (Hl : last l a = hi).
  { pose proof (ascending_last a l Hs) as Hall. rewrite Forall_forall in Hall.
    apply Rle_antisym.
    - apply Hb, last_in.
    - now apply Hall. }
  rewrite Hl, Ha. f_equal.
  simpl length. rewrite S_INR. ring.
Qed.

End Sorting.

Section Perforation6_row_gap.
Import DiePerforation6.

Lemma p6_spread_pcds : pcd_values p6_spread = [100; 140; 180].
Proof.
  unfold pcd_values, Py.range, p6_spread. cbn [number_of_rows pcd_slider].
  change (Z.to_nat 3) with 3%nat. cbn [seq map].
  repeat f_equal; simpl INR; lra.
Qed.

Lemma p6_spread_reversed_pcds : pcd_values p6_spread_reversed = [180; 140; 100].
Proof.
  unfold pcd_values, Py.range, p6_spread_reversed. cbn [number_of_rows pcd_slider].
  change (Z.to_nat 3) with 3%nat. cbn [seq map].
  repeat f_equal; simpl INR; lra.
Qed.

(** C10.  [sorted] puts the pitch circle diameters in ascending order.  With
    at least two rows, [space_between_rows] is the mean of the consecutive
    differences of the sorted diameters, which is
    [(max - min) / (numberOfRows - 1)]; with fewer rows it is 0; and it is the
    same for any two settings whose rows are a permutation of one another. *)
Theorem space_between_rows_spec (inp : Inputs) :
  let pcds := pcd_values inp in
  (StronglySorted Rle (Py.sorted pcds) /\ Permutation pcds (Py.sorted pcds))
  /\ ((2 <= number_of_rows inp)%Z ->
      space_between_rows inp = Np.mean (Np.diff (Py.sorted pcds))
      /\ forall lo hi,
           In lo pcds -> In hi pcds ->
           (forall x, In x pcds -> lo <= x <= hi) ->
           space_between_rows inp = (hi - lo) / (IZR (number_of_rows inp) - 1))
  /\ ((number_of_rows inp < 2)%Z -> space_between_rows inp = 0)
  /\ (forall inp' : Inputs,
        Permutation pcds (pcd_values inp') ->
        space_between_rows inp' = space_between_rows inp).
Proof.
  intro pcds.
  pose proof (sorted_ascending pcds) as Hasc.
  pose proof (sorted_perm pcds) as Hperm.
  assert (Hlen : length pcds = Z.to_nat (number_of_rows inp))
    by apply pcd_values_length.
  split; [now split |]. split; [| split].
  - intro Hrows.
    assert (Hguard : Nat.ltb 1 (length pcds) = true).
    { apply Nat.ltb_lt. lia. }
    assert (Hmean : space_between_rows inp = Np.mean (Np.diff (Py.sorted pcds))).
    { unfold space_between_rows. fold pcds. now rewrite Hguard. }
    split; [exact Hmean |].
    intros lo hi Hlo Hhi Hb. rewrite Hmean.
    assert (Hslen : length (Py.sorted pcds) = Z.to_nat (number_of_rows inp)).
    { rewrite <- Hlen. apply Permutation_length, Permutation_sym, Hperm. }
    rewrite (mean_diff_ascending (Py.sorted pcds) lo hi).
    + rewrite Hslen, INR_IZR_INZ, Z2Nat.id by lia. reflexivity.
    + exact Hasc.
    + lia.
    + now apply (Permutation_in _ Hperm).
    + now apply (Permutation_in _ Hperm).
    + intros x Hx. apply Hb. now apply (Permutation_in _ (Permutation_sym Hperm)).
  - intro Hrows. unfold space_between_rows. fold pcds.
    destruct (Nat.ltb_spec 1 (length pcds)); [lia | reflexivity].
  - intros inp' Hp. unfold space_between_rows. fold pcds.
    rewrite <- (Permutation_length Hp), <- (sorted_of_perm _ _ Hp). reflexivity.
Qed.

(** Rows on the pitch circles 100, 140 and 180: the gap is
    [(180 - 100) / (3 - 1)], also when the rows are listed from the other
    end. *)
Lemma space_between_rows_spec_witness :
  (2 <= number_of_rows p6_spread)%Z
  /\ space_between_rows p6_spread = (180 - 100) / (3 - 1)
  /\ Permutation (pcd_values p6_spread) (pcd_values p6_spread_reversed)
  /\ space_between_rows p6_spread_reversed = space_between_rows p6_spread.
Proof.
  assert (H2 : (2 <= number_of_rows p6_spread)%Z) by (simpl; lia).
  assert (Hp : Permutation (pcd_values p6_spread) (pcd_values p6_spread_reversed)).
  { rewrite p6_spread_pcds, p6_spread_reversed_pcds.
    apply perm_trans with [140; 180; 100].
    - apply perm_trans with [140; 100; 180]; [apply perm_swap |].
      apply perm_skip, perm_swap.
    - apply perm_swap. }
  destruct (space_between_rows_spec p6_spread) as (_ & Hgap & _ & Hinv).
  destruct (Hgap H2) as (_ & Hext).
  split; [exact H2 |]. split; [| split; [exact Hp | exact (Hinv _ Hp)]].
  apply (Hext 100 180); rewrite p6_spread_pcds.
  - simpl; auto.
  - simpl; auto.
  - intros x [<- | [<- | [<- | []]]]; lra.
Defined.

End Perforation6_row_gap.

(** * Further properties of the scripts *)

(** ** When the scripts run to their end *)

Lemma p6_default_widgets_ok : DiePerforation6.widgets_ok p6_default.
Proof.
  unfold DiePerforation6.widgets_ok, p6_default; simpl.
  rewrite channel_max_20 by lra.
  repeat split; try lia; try lra.
  - exists 27%nat; rewrite INR_IZR_INZ; simpl; lra.
  - exists 38%nat; rewrite INR_IZR_INZ; simpl; lra.
  - exists 54%nat; rewrite INR_IZR_INZ; simpl; lra.
  - exists 114%nat; rewrite INR_IZR_INZ; simpl; lra.
  - exists 49%nat; rewrite INR_IZR_INZ; simpl; lra.
  - exists 50%nat; rewrite INR_IZR_INZ; simpl; lra.
Qed.

Lemma f4_default_widgets_ok : DieDesignerFinal4.widgets_ok f4_default.
Proof.
  unfold DieDesignerFinal4.widgets_ok, f4_default; simpl.
  rewrite channel_max_20 by lra.
  repeat split; try lia; try lra.
  - exists 47%nat; rewrite INR_IZR_INZ; simpl; lra.
  - exists 96%nat; rewrite INR_IZR_INZ; simpl; lra.
  - exists 38%nat; rewrite INR_IZR_INZ; simpl; lra.
  - exists 194%nat; rewrite INR_IZR_INZ; simpl; lra.
  - exists 234%nat; rewrite INR_IZR_INZ; simpl; lra.
  - exists 90%nat; rewrite INR_IZR_INZ; simpl; lra.
  - exists 50%nat; rewrite INR_IZR_INZ; simpl; lra.
Qed.

Lemma returns_not_raises {A : Type} (c : result A) : returns c -> ~ raises c.
Proof. intros [a Ha] [e He]. rewrite Ha in He. discriminate. Qed.

Section Perforation6_runs.
Import DiePerforation6.

(** What the widgets guarantee of the numbers the divisions use. *)
Lemma p6_widgets_bounds (inp : Inputs) :
  widgets_ok inp ->
  (1 <= total_holes inp)%Z /\ (1 <= number_of_rows inp)%Z
  /\ 1 / 10 <= dry_meal_throughput inp
  /\ 3 / 10 <= pellet_size inp
  /\ 3 / 10 <= final_diameter inp <= 20
  /\ 3 / 10 <= cone_diameter inp <= 25
  /\ 1 / 10 <= channel_length inp
  /\ 1 <= plate_thickness inp <= 40.
Proof.
  intros (Hps & _ & _ & Hpt & Hfd & Hcd & Hch & Hth & Hdmt & Hnr & _).
  destruct Hps as [Hps _], Hpt as [Hpt _], Hfd as [Hfd _], Hcd as [Hcd _],
    Hch as [Hch _].
  repeat split; try assumption; lra.
Qed.

Lemma p6_script_ok (inp : Inputs) (hpr : Z) :
  holes_per_row inp = Ok hpr ->
  (hpr <> 0)%Z ->
  dry_meal_throughput inp <> 0 ->
  exists m figs, script inp = Ok (m, figs) /\ m_holes_per_row m = hpr.
Proof.
  intros Hh Hnz Ht. unfold script, calculated_outputs. rewrite Hh. simpl.
  unfold open_area_per_tonne. rewrite truediv_ok by assumption. simpl.
  unfold space_between_holes_list.
  rewrite spacing_loop_spec by now apply not_0_IZR.
  simpl. do 2 eexists. split; reflexivity.
Qed.

(** X1.  For settings within the widgets' ranges, [die_perforation_6.py]
    runs to its end exactly when at least as many holes as rows are asked
    for; with fewer holes than rows it is aborted by [ZeroDivisionError]. *)
Theorem p6_script_runs_iff (inp : Inputs) :
  widgets_ok inp ->
  (returns (script inp) <-> (number_of_rows inp <= total_holes inp)%Z)
  /\ ((total_holes inp < number_of_rows inp)%Z ->
      script inp = Raise ZeroDivisionError).
Proof.
  intro Hw. destruct (p6_widgets_bounds inp Hw) as (Hth & Hnr & Hdmt & _).
  assert (Hlow : (total_holes inp < number_of_rows inp)%Z ->
                 script inp = Raise ZeroDivisionError).
  { intro Hlt. apply script_raises, calculated_outputs_zero_divisor.
    right; right. split; [apply holes_per_row_zero; lia | lia]. }
  split; [| exact Hlow]. split.
  - intros [a Ha].
    destruct (Z_le_gt_dec (number_of_rows inp) (total_holes inp)) as [Hle | Hgt];
      [exact Hle |].
    rewrite Hlow in Ha by lia. discriminate.
  - intro Hle.
    assert (Hq1 : (1 <= total_holes inp / number_of_rows inp)%Z)
      by (apply Z.div_le_lower_bound; lia).
    destruct (p6_script_ok inp (total_holes inp / number_of_rows inp))
      as (m & figs & Hs & _).
    + now apply holes_per_row_quotient.
    + lia.
    + lra.
    + now exists (m, figs).
Qed.

Lemma p6_script_runs_iff_witness :
  widgets_ok p6_default /\ returns (script p6_default).
Proof.
  split; [apply p6_default_widgets_ok |].
  apply (proj1 (p6_script_runs_iff p6_default p6_default_widgets_ok)).
  simpl. lia.
Defined.

End Perforation6_runs.

Section Final4_runs.
Import DieDesignerFinal4.

Lemma f4_widgets_bounds (inp : Inputs) :
  widgets_ok inp ->
  (1 <= total_holes inp)%Z /\ (1 <= number_of_rows inp)%Z
  /\ 4 / 10 <= dry_meal_throughput inp
  /\ 3 / 10 <= pellet_size inp
  /\ 3 / 10 <= final_diameter inp <= 20
  /\ 3 / 10 <= cone_diameter inp <= 25
  /\ 1 <= channel_length inp
  /\ 1 <= plate_thickness inp <= 40
  /\ (forall i, 50 <= pcd_slider inp i <= 600)
  /\ (forall i, (1 <= holes_input inp i)%Z).
Proof.
  intros (Hps & _ & _ & Hdmt & Hpt & Hfd & Hcd & Hch & Hth & Hnr & Hpcd & Hh).
  destruct Hps as [Hps _], Hpt as [Hpt _], Hfd as [Hfd _], Hcd as [Hcd _],
    Hch as [Hch _], Hdmt as [Hdmt _].
  repeat split; try assumption; try lra; try apply (Hpcd i).
Qed.

Lemma f4_thin_plate_widgets_ok : widgets_ok f4_thin_plate.
Proof.
  unfold widgets_ok, f4_thin_plate; simpl.
  assert (Hmax : Rmax 10 (Rmin 35 8) = 10).
  { rewrite Rmin_right by lra. apply Rmax_left. lra. }
  rewrite Hmax.
  repeat split; try lia; try lra.
  - exists 47%nat; rewrite INR_IZR_INZ; simpl; lra.
  - exists 96%nat; rewrite INR_IZR_INZ; simpl; lra.
  - exists 14%nat; rewrite INR_IZR_INZ; simpl; lra.
  - exists 194%nat; rewrite INR_IZR_INZ; simpl; lra.
  - exists 234%nat; rewrite INR_IZR_INZ; simpl; lra.
  - exists 90%nat; rewrite INR_IZR_INZ; simpl; lra.
  - exists 50%nat; rewrite INR_IZR_INZ; simpl; lra.
Qed.

(** X2.  For settings within the widgets' ranges,
    [die_designer_final_4.py] runs to its end exactly when the channel length
    differs from the plate thickness, also when it exceeds it (a plate thinner
    than the default channel length); with the two equal it is aborted by
    [ZeroDivisionError]. *)
Theorem f4_script_runs_iff (inp : Inputs) :
  widgets_ok inp ->
  (returns (script inp) <-> channel_length inp <> plate_thickness inp)
  /\ (channel_length inp = plate_thickness inp ->
      script inp = Raise ZeroDivisionError).
Proof.
  intro Hw.
  destruct (f4_widgets_bounds inp Hw) as (_ & _ & Hdmt & Hps & _).
  assert (Hflush : channel_length inp = plate_thickness inp ->
                   script inp = Raise ZeroDivisionError).
  { intro Heq. apply f4_cone_angle_raises. unfold cone_length. lra. }
  split; [| exact Hflush]. split.
  - intros [a Ha] Heq. rewrite (Hflush Heq) in Ha. discriminate.
  - intro Hne. unfold returns, script, calculated_outputs, cone_angle_deg,
      cone_angle_rad, open_area_per_tonne, expansion.
    rewrite !truediv_ok by (unfold cone_length; lra). simpl.
    eexists. reflexivity.
Qed.

(** The defaults run to the end, and so does a plate of thickness 8 under
    the default channel length 10. *)
Lemma f4_script_runs_iff_witness :
  widgets_ok f4_default /\ returns (script f4_default)
  /\ widgets_ok f4_thin_plate
  /\ plate_thickness f4_thin_plate < channel_length f4_thin_plate
  /\ returns (script f4_thin_plate).
Proof.
  split; [apply f4_default_widgets_ok |]. split.
  - apply (proj1 (f4_script_runs_iff f4_default f4_default_widgets_ok)).
    simpl. lra.
  - split; [apply f4_thin_plate_widgets_ok |]. split; [simpl; lra |].
    apply (proj1 (f4_script_runs_iff f4_thin_plate f4_thin_plate_widgets_ok)).
    simpl. lra.
Defined.

End Final4_runs.

(** ** The cone angle, the expansion and the spacing as quantities *)

Lemma degrees_bound (x : R) :
  - PI / 2 < x < PI / 2 -> -90 < Np.degrees x < 90.
Proof.
  intros [Hlo Hhi]. unfold Np.degrees. pose proof PI_RGT_0 as HP.
  assert (Hk : 0 < 180 / PI) by (apply Rdiv_lt_0_compat; lra).
  assert (H90 : PI / 2 * (180 / PI) = 90) by (field; lra).
  split.
  - replace (-90) with (- PI / 2 * (180 / PI)) by lra.
    now apply Rmult_lt_compat_r.
  - rewrite <- H90. now apply Rmult_lt_compat_r.
Qed.

Lemma degrees_le (x y : R) : x <= y -> Np.degrees x <= Np.degrees y.
Proof.
  intro H. unfold Np.degrees. pose proof PI_RGT_0 as HP.
  apply Rmult_le_compat_r; [| assumption].
  left. apply Rdiv_lt_0_compat; lra.
Qed.

Lemma arctan_le (x y : R) : x <= y -> Np.arctan x <= Np.arctan y.
Proof.
  unfold Np.arctan. intros [H | ->]; [left; now apply atan_increasing | lra].
Qed.

Lemma degrees_radians (x : R) : Np.degrees x * (PI / 180) = x.
Proof. unfold Np.degrees. pose proof PI_RGT_0. field. lra. Qed.

Section Perforation6_quantities.
Import DiePerforation6.

Lemma p6_cone_angle_rad_bound (inp : Inputs) :
  0 <= cone_angle_rad inp < PI / 2.
Proof.
  unfold cone_angle_rad. pose proof PI_RGT_0 as HP.
  destruct (Rlt_dec 0 (cone_length inp)) as [Hlen | _]; [| lra].
  split.
  - apply arctan_nonneg. unfold cone_radius.
    apply Rmult_le_pos; [apply Rabs_pos |].
    left. now apply Rinv_0_lt_compat.
  - apply atan_bound.
Qed.

(** X3.  The cone angle [die_perforation_6.py] reports lies in [[0, 90)]
    degrees whatever the inputs; the angle [die_designer_final_4.py] reports,
    when it reports one, lies strictly between -90 and 90 degrees. *)
Theorem cone_angle_range :
  (forall inp : Inputs, 0 <= cone_angle_deg inp < 90)
  /\ (forall (inp : DieDesignerFinal4.Inputs) (a : R),
        DieDesignerFinal4.cone_angle_deg inp = Ok a -> -90 < a < 90).
Proof.
  split.
  - intro inp. destruct (p6_cone_angle_rad_bound inp) as [Hlo Hhi].
    unfold cone_angle_deg. split.
    + now apply degrees_nonneg.
    + apply degrees_bound. pose proof PI_RGT_0. lra.
  - intros inp a. unfold DieDesignerFinal4.cone_angle_deg,
      DieDesignerFinal4.cone_angle_rad, Py.truediv.
    destruct (Req_dec_T (DieDesignerFinal4.cone_length inp) 0); simpl;
      [discriminate |].
    intro Ha. injection Ha as <-. apply degrees_bound. unfold Np.arctan.
    apply atan_bound.
Qed.

Lemma cone_angle_range_witness :
  exists a, DieDesignerFinal4.cone_angle_deg f4_default = Ok a /\ -90 < a < 90.
Proof.
  assert (Ha : DieDesignerFinal4.cone_angle_deg f4_default
               = Ok (Np.degrees (Np.arctan ((12 - 10) / 2 / (20 - 10))))).
  { unfold DieDesignerFinal4.cone_angle_deg, DieDesignerFinal4.cone_angle_rad,
      DieDesignerFinal4.cone_radius, DieDesignerFinal4.cone_length. simpl.
    rewrite truediv_ok by lra. reflexivity. }
  eexists. split; [exact Ha |].
  exact (proj2 cone_angle_range f4_default _ Ha).
Defined.

(** X4.  With a positive cone length, the angle [die_perforation_6.py]
    reports reproduces the taper: the tangent of the angle (taken back to
    radians) times the cone length is half the difference of the diameters. *)
Theorem p6_cone_angle_tan (inp : Inputs) :
  0 < cone_length inp ->
  tan (cone_angle_deg inp * (PI / 180)) * cone_length inp
  = Rabs (cone_diameter inp - final_diameter inp) / 2.
Proof.
  intro Hlen. unfold cone_angle_deg. rewrite degrees_radians.
  unfold cone_angle_rad, Np.arctan.
  destruct (Rlt_dec 0 (cone_length inp)); [| contradiction].
  rewrite tan_atan. unfold cone_radius. rewrite Rabs_half. field. lra.
Qed.

Lemma p6_cone_angle_tan_witness :
  0 < cone_length p6_default
  /\ tan (cone_angle_deg p6_default * (PI / 180)) * cone_length p6_default
     = Rabs (6 - 3) / 2.
Proof.
  assert (H : 0 < cone_length p6_default) by (unfold cone_length; simpl; lra).
  split; [exact H |]. exact (p6_cone_angle_tan p6_default H).
Defined.

(** X5.  In [die_perforation_6.py] the cone angle grows with the difference
    of the diameters and shrinks as the cone gets longer: of two settings
    with positive cone lengths, the one with the difference no smaller and the
    cone no longer has the angle no smaller. *)
Theorem p6_cone_angle_monotone (a b : Inputs) :
  0 < cone_length b <= cone_length a ->
  Rabs (cone_diameter a - final_diameter a)
  <= Rabs (cone_diameter b - final_diameter b) ->
  cone_angle_deg a <= cone_angle_deg b.
Proof.
  intros [Hb Hab] Hd. unfold cone_angle_deg, cone_angle_rad.
  destruct (Rlt_dec 0 (cone_length a)); [| lra].
  destruct (Rlt_dec 0 (cone_length b)); [| lra].
  apply degrees_le, arctan_le. unfold cone_radius. rewrite !Rabs_half.
  set (da := Rabs (cone_diameter a - final_diameter a)) in *.
  set (db := Rabs (cone_diameter b - final_diameter b)) in *.
  assert (Hda : 0 <= da) by apply Rabs_pos.
  assert (Hia : / cone_length a <= / cone_length b)
    by (apply Rinv_le_contravar; assumption).
  assert (Hib : 0 < / cone_length a) by (apply Rinv_0_lt_compat; lra).
  unfold Rdiv. nra.
Qed.

(** Two cones of length 15: diameters 12 and 10 against 6 and 3. *)
Lemma p6_cone_angle_monotone_witness :
  0 < cone_length p6_default <= cone_length p6_pellet5_final10
  /\ cone_angle_deg p6_pellet5_final10 <= cone_angle_deg p6_default.
Proof.
  assert (H : 0 < cone_length p6_default <= cone_length p6_pellet5_final10)
    by (unfold cone_length; simpl; lra).
  split; [exact H |].
  apply (p6_cone_angle_monotone p6_pellet5_final10 p6_default H). simpl.
  rewrite !Rabs_pos_eq by lra. lra.
Defined.

(** X6.  With a positive pellet size, the expansion [die_perforation_6.py]
    reports is positive exactly when the final hole is narrower than the
    pellet, zero exactly when they are equal, and below 100 for a positive
    final diameter. *)
Theorem p6_expansion_sign (inp : Inputs) :
  0 < pellet_size inp ->
  (0 < expansion inp <-> final_diameter inp < pellet_size inp)
  /\ (expansion inp = 0 <-> final_diameter inp = pellet_size inp)
  /\ (0 < final_diameter inp -> expansion inp < 100).
Proof.
  intro Hp. unfold expansion.
  destruct (Rlt_dec 0 (pellet_size inp)); [| contradiction].
  set (q := final_diameter inp / pellet_size inp).
  assert (Hq : q * pellet_size inp = final_diameter inp)
    by (unfold q; field; lra).
  split; [| split].
  - split; intro H; nra.
  - split; intro H; nra.
  - intro Hfd. assert (0 < q) by (apply Rdiv_lt_0_compat; assumption). lra.
Qed.

Lemma p6_expansion_sign_witness :
  0 < pellet_size p6_pellet5_final10
  /\ ~ 0 < expansion p6_pellet5_final10
  /\ expansion p6_pellet5_final10 < 100.
Proof.
  assert (Hp : 0 < pellet_size p6_pellet5_final10) by (simpl; lra).
  destruct (p6_expansion_sign p6_pellet5_final10 Hp) as (Hpos & _ & Hlt).
  split; [exact Hp |]. split.
  - intro H. apply Hpos in H. simpl in H. lra.
  - apply Hlt. simpl. lra.
Defined.

(** X7.  With [holesPerRow >= 1], the spacing [s] reported for a row of
    pitch circle diameter [pcd] makes the holes and the gaps add up to the
    circumference, [holesPerRow * (s + finalDiameter) = pi * pcd]; it is
    negative exactly when the holes do not fit on the circle. *)
Theorem p6_spacing_circumference (inp : Inputs) (hpr : Z) (spaces : list R) :
  (1 <= hpr)%Z ->
  space_between_holes_list inp hpr = Ok spaces ->
  forall r pcd s,
    nth_error (pcd_values inp) r = Some pcd ->
    nth_error spaces r = Some s ->
    IZR hpr * (s + final_diameter inp) = PI * pcd
    /\ (s < 0 <-> PI * pcd < IZR hpr * final_diameter inp).
Proof.
  intros Hh Hs r pcd s Hpcd Hnth.
  assert (Hpos : 0 < IZR hpr) by (apply IZR_lt; lia).
  unfold space_between_holes_list in Hs.
  rewrite spacing_loop_spec in Hs by lra.
  injection Hs as <-. simpl in Hnth.
  rewrite nth_error_map, Hpcd in Hnth. injection Hnth as <-.
  assert (Hsum : IZR hpr * (2 * PI * (pcd / 2) / IZR hpr - final_diameter inp
                            + final_diameter inp) = PI * pcd)
    by (field; lra).
  split; [exact Hsum |].
  set (s := 2 * PI * (pcd / 2) / IZR hpr - final_diameter inp) in *.
  split; intro H; nra.
Qed.

Lemma p6_spacing_circumference_witness :
  (1 <= 20)%Z
  /\ exists spaces s,
       space_between_holes_list p6_default 20 = Ok spaces
       /\ nth_error spaces 0 = Some s
       /\ 20 * (s + 3) = PI * 100.
Proof.
  assert (H1 : (1 <= 20)%Z) by lia.
  split; [exact H1 |].
  assert (Hs : space_between_holes_list p6_default 20
               = Ok (map (fun pcd => 2 * PI * (pcd / 2) / 20 - 3)
                         (pcd_values p6_default))).
  { unfold space_between_holes_list.
    rewrite spacing_loop_spec by (apply not_0_IZR; lia). reflexivity. }
  do 2 eexists. split; [exact Hs |]. split; [reflexivity |].
  exact (proj1 (p6_spacing_circumference p6_default 20 _ H1 Hs 0%nat 100 _
                  eq_refl eq_refl)).
Defined.

End Perforation6_quantities.

(** ** The profile and its viewport *)

(** X8.  In [die_perforation_6.py] and [die_designer_final_4.py] the profile
    is its own mirror image about the bore axis, and the channel rectangle
    lies exactly on the straight part of the polygon: its four corners are
    the second to fifth vertices. *)
Theorem profile_channel_overlay :
  (forall inp : DiePerforation6.Inputs,
     let poly := poly_xy (DiePerforation6.cone_patch inp) in
     let rect := DiePerforation6.channel_patch inp in
     let x0 := fst (rect_xy rect) in
     let y0 := snd (rect_xy rect) in
     map (fun v => (- fst v, snd v)) poly = rev poly
     /\ firstn 4 (skipn 1 poly)
        = [ (x0, y0); (x0, y0 + rect_height rect);
            (x0 + rect_width rect, y0 + rect_height rect);
            (x0 + rect_width rect, y0) ])
  /\
  (forall inp : DieDesignerFinal4.Inputs,
     let poly := poly_xy (DieDesignerFinal4.cone inp) in
     let rect := DieDesignerFinal4.channel inp in
     let x0 := fst (rect_xy rect) in
     let y0 := snd (rect_xy rect) in
     map (fun v => (- fst v, snd v)) poly = rev poly
     /\ firstn 4 (skipn 1 poly)
        = [ (x0, y0); (x0, y0 + rect_height rect);
            (x0 + rect_width rect, y0 + rect_height rect);
            (x0 + rect_width rect, y0) ]).
Proof.
  split; intro inp; cbv zeta; split.
  - unfold DiePerforation6.cone_patch. cbn [poly_xy map rev app fst snd].
    repeat (f_equal; try lra).
  - unfold DiePerforation6.cone_patch, DiePerforation6.channel_patch,
      DiePerforation6.cone_length.
    cbn [poly_xy skipn firstn rect_xy rect_width rect_height fst snd].
    repeat (f_equal; try lra).
  - unfold DieDesignerFinal4.cone. cbn [poly_xy map rev app fst snd].
    repeat (f_equal; try lra).
  - unfold DieDesignerFinal4.cone, DieDesignerFinal4.channel,
      DieDesignerFinal4.cone_length.
    cbn [poly_xy skipn firstn rect_xy rect_width rect_height fst snd].
    repeat (f_equal; try lra).
Qed.

Section Perforation6_view.
Import DiePerforation6.

Lemma p6_wide_hole_widgets_ok : widgets_ok p6_wide_hole.
Proof.
  unfold widgets_ok, p6_wide_hole; simpl.
  rewrite channel_max_20 by lra.
  repeat split; try lia; try lra.
  - exists 27%nat; rewrite INR_IZR_INZ; simpl; lra.
  - exists 38%nat; rewrite INR_IZR_INZ; simpl; lra.
  - exists 394%nat; rewrite INR_IZR_INZ; simpl; lra.
  - exists 0%nat; simpl; lra.
  - exists 49%nat; rewrite INR_IZR_INZ; simpl; lra.
  - exists 50%nat; rewrite INR_IZR_INZ; simpl; lra.
Qed.

Lemma p6_thin_plate_widgets_ok : widgets_ok p6_thin_plate.
Proof.
  unfold widgets_ok, p6_thin_plate; simpl.
  assert (Hmax : Rmax 5 (Rmin 35 4) = 5).
  { rewrite Rmin_right by lra. apply Rmax_left. lra. }
  rewrite Hmax.
  repeat split; try lia; try lra.
  - exists 27%nat; rewrite INR_IZR_INZ; simpl; lra.
  - exists 6%nat; rewrite INR_IZR_INZ; simpl; lra.
  - exists 54%nat; rewrite INR_IZR_INZ; simpl; lra.
  - exists 114%nat; rewrite INR_IZR_INZ; simpl; lra.
  - exists 49%nat; rewrite INR_IZR_INZ; simpl; lra.
  - exists 50%nat; rewrite INR_IZR_INZ; simpl; lra.
Qed.

(** X9.  For settings within the widgets' ranges of [die_perforation_6.py],
    all vertices of the profile are within the vertical limits of the 2D
    plot exactly when the channel is no longer than the plate is thick, and
    within its horizontal limits exactly when the final diameter is at most
    twice the cone diameter. *)
Theorem p6_profile_in_view (inp : Inputs) :
  widgets_ok inp ->
  let poly := poly_xy (cone_patch inp) in
  (Forall (fun v => fst (ax2d_ylim inp) <= snd v <= snd (ax2d_ylim inp)) poly
   <-> channel_length inp <= plate_thickness inp)
  /\ (Forall (fun v => fst (ax2d_xlim inp) <= fst v <= snd (ax2d_xlim inp)) poly
      <-> final_diameter inp <= 2 * cone_diameter inp).
Proof.
  intro Hw. destruct (p6_widgets_bounds inp Hw)
    as (_ & _ & _ & _ & Hfd & Hcd & Hch & Hpt).
  cbv zeta. unfold cone_patch, ax2d_xlim, ax2d_ylim, cone_length.
  cbn [poly_xy fst snd]. split; split.
  - intro H. inversion H as [| v l _ H1]; subst.
    inversion H1 as [| v' l' Hv _]; subst. cbn [fst snd] in Hv. lra.
  - intro H. repeat (apply Forall_cons; [cbn [fst snd]; lra |]).
    apply Forall_nil.
  - intro H. inversion H as [| v l _ H1]; subst.
    inversion H1 as [| v' l' Hv _]; subst. cbn [fst snd] in Hv. lra.
  - intro H. repeat (apply Forall_cons; [cbn [fst snd]; lra |]).
    apply Forall_nil.
Qed.

(** The defaults fit; the widest hole behind the narrowest opening does not
    fit horizontally, and a plate of thickness 4 under the default channel
    length 5 does not fit vertically. *)
Lemma p6_profile_in_view_witness :
  widgets_ok p6_default
  /\ Forall (fun v => fst (ax2d_xlim p6_default) <= fst v
                      <= snd (ax2d_xlim p6_default))
            (poly_xy (cone_patch p6_default))
  /\ Forall (fun v => fst (ax2d_ylim p6_default) <= snd v
                      <= snd (ax2d_ylim p6_default))
            (poly_xy (cone_patch p6_default))
  /\ widgets_ok p6_wide_hole
  /\ ~ Forall (fun v => fst (ax2d_xlim p6_wide_hole) <= fst v
                        <= snd (ax2d_xlim p6_wide_hole))
              (poly_xy (cone_patch p6_wide_hole))
  /\ widgets_ok p6_thin_plate
  /\ ~ Forall (fun v => fst (ax2d_ylim p6_thin_plate) <= snd v
                        <= snd (ax2d_ylim p6_thin_plate))
              (poly_xy (cone_patch p6_thin_plate)).
Proof.
  split; [apply p6_default_widgets_ok |]. split.
  { apply (proj2 (p6_profile_in_view p6_default p6_default_widgets_ok)).
    simpl. lra. }
  split.
  { apply (proj1 (p6_profile_in_view p6_default p6_default_widgets_ok)).
    simpl. lra. }
  split; [apply p6_wide_hole_widgets_ok |]. split.
  { intro H.
    apply (proj2 (p6_profile_in_view p6_wide_hole p6_wide_hole_widgets_ok)) in H.
    simpl in H. lra. }
  split; [apply p6_thin_plate_widgets_ok |].
  intro H.
  apply (proj1 (p6_profile_in_view p6_thin_plate p6_thin_plate_widgets_ok)) in H.
  simpl in H. lra.
Defined.

End Perforation6_view.

(** ** The surface of revolution as a closed surface *)

Lemma linspace_first (start stop : R) (num : nat) :
  (0 < num)%nat -> nth_error (Np.linspace start stop num) 0 = Some start.
Proof.
  intro Hn. rewrite linspace_nth by assumption. f_equal. simpl INR. ring.
Qed.

Lemma linspace_last (start stop : R) (num : nat) :
  (2 <= num)%nat -> nth_error (Np.linspace start stop num) (num - 1) = Some stop.
Proof.
  intro Hn. rewrite linspace_nth by lia. f_equal.
  assert (Hnz : INR (num - 1) <> 0) by (apply not_0_INR; lia).
  field. exact Hnz.
Qed.

(** A column times a grid of equal rows, one row per entry of the column. *)
Lemma column_times_rows {A : Type} (r : list R) (a : list A) (row : list R) :
  length r = length a ->
  Np.column_times r (map (fun _ => row) a)
  = map (fun ri => map (fun v => ri * v) row) r.
Proof.
  unfold Np.column_times. revert a.
  induction r as [| ri r IH]; intros [| x a] Hlen; simpl in *;
    try reflexivity; try discriminate.
  f_equal. apply IH. lia.
Qed.

Lemma sorted_map_seq (le : R -> R -> Prop) (h : nat -> R) (n s : nat) :
  (forall i, le (h i) (h (S i))) ->
  Sorted le (map h (seq s n)).
Proof.
  intro Hstep. revert s. induction n as [| n IH]; intro s; simpl.
  - constructor.
  - constructor; [apply IH |].
    destruct n; simpl; constructor. apply Hstep.
Qed.

Section Perforation6_surface.
Import DiePerforation6.

Lemma p6_r_cone_length (inp : Inputs) : length (r_cone inp) = 30%nat.
Proof.
  unfold r_cone, Np.full_like.
  destruct (Rlt_dec 0 (cone_length inp)); rewrite length_map; apply linspace_length.
Qed.

Lemma p6_cone_grid (inp : Inputs) :
  x_cone inp = map (fun r => map (fun t => r * cos t) theta) (r_cone inp)
  /\ y_cone inp = map (fun r => map (fun t => r * sin t) theta) (r_cone inp).
Proof.
  assert (Hlen : length (r_cone inp) = length (z_cone inp)).
  { rewrite p6_r_cone_length. symmetry. apply linspace_length. }
  unfold x_cone, y_cone, theta_grid.
  rewrite meshgrid_fst, !map_map, !column_times_rows by assumption.
  split; apply map_ext; intro r; now rewrite map_map.
Qed.

Lemma theta_ends :
  nth_error theta 0 = Some 0 /\ nth_error theta 29 = Some (2 * PI).
Proof.
  unfold theta, Np.pi. split.
  - apply linspace_first. lia.
  - apply (linspace_last 0 (2 * PI) 30). lia.
Qed.

Lemma seam_row (f : R -> R) (l : list R) :
  nth_error l 0 = Some 0 -> nth_error l 29 = Some (2 * PI) ->
  f 0 = f (2 * PI) ->
  nth_error (map f l) 0 = nth_error (map f l) 29.
Proof.
  intros H0 H29 Hf. rewrite !nth_error_map, H0, H29. simpl. now rewrite Hf.
Qed.

Lemma p6_r_cone_ends (inp : Inputs) :
  0 < cone_length inp ->
  nth_error (r_cone inp) 0 = Some (cone_diameter inp / 2)
  /\ nth_error (r_cone inp) 29 = Some (final_diameter inp / 2).
Proof.
  intro Hlen. unfold r_cone, z_cone.
  destruct (Rlt_dec 0 (cone_length inp)); [| contradiction].
  assert (Hz0 : nth_error (Np.linspace 0 (cone_length inp) 30) 0 = Some 0)
    by (apply linspace_first; lia).
  assert (Hz29 : nth_error (Np.linspace 0 (cone_length inp) 30) 29
                 = Some (cone_length inp))
    by (apply (linspace_last 0 (cone_length inp) 30); lia).
  rewrite !nth_error_map, Hz0, Hz29. cbn [option_map].
  split; f_equal; field; lra.
Qed.

(** X10.  The mesh of [die_perforation_6.py] is one closed surface.  The
    cone samples start at depth 0 and end at the cone length, where the
    channel samples start, and these end at the plate thickness; with a
    positive cone length the cone radius starts at half the cone diameter
    and ends at half the final diameter, the radius of the channel; and in
    every ring of the cone and of the channel the last point (angle [2*pi])
    is the first one (angle 0). *)
Theorem p6_mesh_closed (inp : Inputs) :
  (nth_error (z_cone inp) 0 = Some 0
   /\ nth_error (z_cone inp) 29 = Some (cone_length inp)
   /\ nth_error (z_channel inp) 0 = Some (cone_length inp)
   /\ nth_error (z_channel inp) 9 = Some (plate_thickness inp))
  /\ (0 < cone_length inp ->
      nth_error (r_cone inp) 0 = Some (cone_diameter inp / 2)
      /\ nth_error (r_cone inp) 29 = Some (final_diameter inp / 2)
      /\ nth_error (r_channel inp) 0 = Some (final_diameter inp / 2))
  /\ Forall (fun ring => nth_error ring 0 = nth_error ring 29) (x_cone inp)
  /\ Forall (fun ring => nth_error ring 0 = nth_error ring 29) (y_cone inp)
  /\ Forall (fun ring => nth_error ring 0 = nth_error ring 29) (x_channel inp)
  /\ Forall (fun ring => nth_error ring 0 = nth_error ring 29) (y_channel inp).
Proof.
  destruct theta_ends as [Ht0 Ht29].
  assert (Hz0 : nth_error (z_cone inp) 0 = Some 0)
    by (apply linspace_first; lia).
  assert (Hz29 : nth_error (z_cone inp) 29 = Some (cone_length inp))
    by (apply (linspace_last 0 (cone_length inp) 30); lia).
  assert (Hc0 : nth_error (z_channel inp) 0 = Some (cone_length inp))
    by (apply linspace_first; lia).
  assert (Hc9 : nth_error (z_channel inp) 9 = Some (plate_thickness inp))
    by (apply (linspace_last (cone_length inp) (plate_thickness inp) 10); lia).
  assert (Hcos : forall r : R, r * cos 0 = r * cos (2 * PI))
    by (intro r; now rewrite cos_0, cos_2PI).
  assert (Hsin : forall r : R, r * sin 0 = r * sin (2 * PI))
    by (intro r; now rewrite sin_0, sin_2PI).
  split; [now repeat split |]. split.
  - intro Hlen. destruct (p6_r_cone_ends inp Hlen) as [Hr0 Hr29].
    split; [exact Hr0 |]. split; [exact Hr29 |].
    unfold r_channel, Np.full_like. now rewrite nth_error_map, Hc0.
  - destruct (p6_cone_grid inp) as [-> ->].
    unfold x_channel, y_channel, r_channel, theta_grid2, Np.full_like.
    rewrite meshgrid_fst, !map_map, !column_times_constant.
    repeat split; apply Forall_map, Forall_forall; intros r _;
      try rewrite map_map;
      first [ apply (seam_row (fun t => r * cos t)); auto
            | apply (seam_row (fun t => r * sin t)); auto
            | apply (seam_row (fun t => final_diameter inp / 2 * cos t)); auto
            | apply (seam_row (fun t => final_diameter inp / 2 * sin t)); auto ].
Qed.

(** The defaults: the cone narrows from radius 3 to radius 1.5, the radius
    of the channel. *)
Lemma p6_mesh_closed_witness :
  0 < cone_length p6_default
  /\ nth_error (r_cone p6_default) 0 = Some (6 / 2)
  /\ nth_error (r_cone p6_default) 29 = Some (3 / 2)
  /\ nth_error (r_channel p6_default) 0 = Some (3 / 2).
Proof.
  assert (H : 0 < cone_length p6_default) by (unfold cone_length; simpl; lra).
  split; [exact H |].
  exact (proj1 (proj2 (p6_mesh_closed p6_default)) H).
Defined.

(** X11.  The cone grids of [die_perforation_6.py] have 30 rings of 30
    points, and the point of ring [i] at the angle sample [t] is
    [(r * cos t, r * sin t)] for the radius [r] of depth sample [i]: it lies on
    the circle of radius [r] about the bore axis. *)
Theorem p6_cone_mesh_on_circles (inp : Inputs) :
  length (x_cone inp) = 30%nat
  /\ Forall (fun ring => length ring = 30%nat) (x_cone inp)
  /\ forall i j r t,
       nth_error (r_cone inp) i = Some r ->
       nth_error theta j = Some t ->
       exists xs ys,
         nth_error (x_cone inp) i = Some xs
         /\ nth_error (y_cone inp) i = Some ys
         /\ nth_error xs j = Some (r * cos t)
         /\ nth_error ys j = Some (r * sin t)
         /\ (r * cos t) ^ 2 + (r * sin t) ^ 2 = r ^ 2.
Proof.
  destruct (p6_cone_grid inp) as [Hx Hy]. rewrite Hx, Hy.
  split; [now rewrite length_map, p6_r_cone_length |]. split.
  - apply Forall_map, Forall_forall. intros r _.
    rewrite length_map. apply linspace_length.
  - intros i j r t Hr Ht.
    exists (map (fun t => r * cos t) theta), (map (fun t => r * sin t) theta).
    rewrite !nth_error_map, Hr, Ht. cbn [option_map].
    repeat (split; [reflexivity |]). apply on_circle_sqr.
Qed.

Lemma p6_cone_mesh_on_circles_witness :
  exists xs ys,
    nth_error (x_cone p6_default) 0 = Some xs
    /\ nth_error (y_cone p6_default) 0 = Some ys
    /\ nth_error xs 29 = Some (6 / 2 * cos (2 * PI))
    /\ nth_error ys 29 = Some (6 / 2 * sin (2 * PI)).
Proof.
  assert (Hlen : 0 < cone_length p6_default)
    by (unfold cone_length; simpl; lra).
  assert (Hr : nth_error (r_cone p6_default) 0 = Some (6 / 2))
    by exact (proj1 (p6_r_cone_ends p6_default Hlen)).
  destruct (p6_cone_mesh_on_circles p6_default) as (_ & _ & H).
  destruct (H 0%nat 29%nat _ _ Hr (proj2 theta_ends))
    as (xs & ys & Hxs & Hys & Hx & Hy & _).
  exists xs, ys. repeat split; assumption.
Defined.

(** X12.  In [die_perforation_6.py] every cone radius lies between half the
    final diameter and half the cone diameter, whatever the inputs; with a
    positive cone length and a cone opening no narrower than the final hole
    the radii do not grow with the depth. *)
Theorem p6_r_cone_bounds (inp : Inputs) :
  Forall (fun r => Rmin (final_diameter inp / 2) (cone_diameter inp / 2) <= r
                   <= Rmax (final_diameter inp / 2) (cone_diameter inp / 2))
         (r_cone inp)
  /\ (0 < cone_length inp ->
      final_diameter inp <= cone_diameter inp ->
      Sorted (fun r r' => r' <= r) (r_cone inp)).
Proof.
  split.
  - unfold r_cone, Np.full_like.
    destruct (Rlt_dec 0 (cone_length inp)) as [Hlen | Hlen].
    + apply Forall_map.
      pose proof (linspace_30_bounds (cone_length inp) (Rlt_le _ _ Hlen)) as Hz.
      fold (z_cone inp) in Hz.
      apply Forall_impl with (2 := Hz). intros z [Hz0 Hz1].
      set (t := z / cone_length inp).
      assert (Ht : 0 <= t <= 1).
      { unfold t. split.
        - apply Rmult_le_pos; [assumption | left; now apply Rinv_0_lt_compat].
        - apply Rmult_le_reg_r with (r := cone_length inp); [assumption |].
          replace (z / cone_length inp * cone_length inp) with z by (field; lra).
          lra. }
      unfold Rmin, Rmax.
      destruct (Rle_dec (final_diameter inp / 2) (cone_diameter inp / 2)); nra.
    + apply Forall_map, Forall_forall. intros z _.
      unfold Rmin, Rmax.
      destruct (Rle_dec (final_diameter inp / 2) (cone_diameter inp / 2)); lra.
  - intros Hlen Hd. unfold r_cone.
    destruct (Rlt_dec 0 (cone_length inp)); [| contradiction].
    unfold z_cone, Np.linspace. rewrite map_map.
    apply sorted_map_seq. intro i. rewrite S_INR.
    assert (H29 : INR (30 - 1) = 29) by (rewrite INR_IZR_INZ; reflexivity).
    rewrite H29.
    assert (Hstep : 0 <= (cone_length inp - 0) / 29 / cone_length inp).
    { replace ((cone_length inp - 0) / 29 / cone_length inp) with (1 / 29)
        by (field; lra). lra. }
    set (u := (cone_length inp - 0) / 29) in *.
    replace ((0 + (INR i + 1) * u) / cone_length inp)
      with ((0 + INR i * u) / cone_length inp + u / cone_length inp)
      by (field; lra).
    nra.
Qed.

Lemma p6_r_cone_bounds_witness :
  0 < cone_length p6_default
  /\ final_diameter p6_default <= cone_diameter p6_default
  /\ Sorted (fun r r' => r' <= r) (r_cone p6_default).
Proof.
  assert (H1 : 0 < cone_length p6_default) by (unfold cone_length; simpl; lra).
  assert (H2 : final_diameter p6_default <= cone_diameter p6_default)
    by (simpl; lra).
  split; [exact H1 |]. split; [exact H2 |].
  exact (proj2 (p6_r_cone_bounds p6_default) H1 H2).
Defined.

End Perforation6_surface.

(** ** The ring layout on its axes *)

Lemma circle_extent (r a : R) :
  0 <= r -> - r <= r * cos a <= r /\ - r <= r * sin a <= r.
Proof.
  intro Hr. pose proof (COS_bound a). pose proof (SIN_bound a). split; nra.
Qed.

Lemma last_snoc (l : list R) (x d : R) : last (l ++ [x]) d = x.
Proof. apply last_last. Qed.

Section Perforation6_ring_axes.
Import DiePerforation6.

Lemma p6_ring_row_loop_spec (inp : Inputs) (radius : R) (hpr : Z) (ax : Axes) :
  ring_row_loop inp radius hpr ax
  = mkAxes (ax_patches ax ++ ring_row inp radius hpr) (ax_xlim ax) (ax_ylim ax).
Proof.
  unfold ring_row_loop, ring_row. generalize (Py.range hpr). intro l.
  revert ax. induction l as [| i l IH]; intro ax; simpl.
  - rewrite app_nil_r. now destruct ax.
  - rewrite IH. unfold add_patch. simpl. now rewrite <- app_assoc.
Qed.

Lemma p6_ring_loop_patches (inp : Inputs) (hpr : Z) (pcds : list R) (ax : Axes) :
  ax_patches (ring_loop inp hpr pcds ax)
  = ax_patches ax
    ++ concat (map (fun pcd => ring_row inp (pcd / 2) hpr) pcds).
Proof.
  unfold ring_loop. revert ax.
  induction pcds as [| pcd rest IH]; intro ax; simpl.
  - now rewrite app_nil_r.
  - rewrite IH, p6_ring_row_loop_spec. simpl. now rewrite <- app_assoc.
Qed.

Lemma p6_ring_loop_limits (inp : Inputs) (hpr : Z) (rows : list R) (pcd : R)
  (ax : Axes) :
  let final := ring_loop inp hpr (rows ++ [pcd]) ax in
  ax_xlim final = Some (- (pcd / 2) - 10, pcd / 2 + 10)
  /\ ax_ylim final = Some (- (pcd / 2) - 10, pcd / 2 + 10).
Proof.
  unfold ring_loop. rewrite fold_left_app. simpl. split; reflexivity.
Qed.

(** X13.  Run as written, the ring loop of [die_perforation_6.py] adds to
    the axes exactly the holes of the layout, row after row, and leaves the
    limits it set for the last row: plus and minus that row's radius and 10,
    whatever the radii of the rows before it; without a row no limit is set. *)
Theorem p6_ax_ring_spec (inp : Inputs) (hpr : Z) :
  ax_patches (ax_ring inp hpr) = ring_patches inp hpr
  /\ (forall rows pcd,
        pcd_values inp = rows ++ [pcd] ->
        ax_xlim (ax_ring inp hpr) = Some (- (pcd / 2) - 10, pcd / 2 + 10)
        /\ ax_ylim (ax_ring inp hpr) = Some (- (pcd / 2) - 10, pcd / 2 + 10))
  /\ (pcd_values inp = [] ->
      ax_xlim (ax_ring inp hpr) = None /\ ax_ylim (ax_ring inp hpr) = None).
Proof.
  unfold ax_ring. split; [| split].
  - rewrite p6_ring_loop_patches. reflexivity.
  - intros rows pcd Hrows. rewrite Hrows. apply p6_ring_loop_limits.
  - intros Hnil. rewrite Hnil. split; reflexivity.
Qed.

Lemma p6_ax_ring_spec_witness :
  pcd_values p6_spread_reversed = [180; 140] ++ [100]
  /\ ax_xlim (ax_ring p6_spread_reversed 33)
     = Some (- (100 / 2) - 10, 100 / 2 + 10).
Proof.
  assert (H : pcd_values p6_spread_reversed = [180; 140] ++ [100])
    by apply p6_spread_reversed_pcds.
  split; [exact H |].
  exact (proj1 (proj1 (proj2 (p6_ax_ring_spec p6_spread_reversed 33)) _ _ H)).
Defined.

Lemma p6_ring_row_in (inp : Inputs) (radius : R) (hpr : Z) (c : Circle) :
  In c (ring_row inp radius hpr) ->
  exists a, c = mkCircle (radius * cos a) (radius * sin a)
                         (final_diameter inp / 2).
Proof.
  unfold ring_row. intro Hin. apply in_map_iff in Hin.
  destruct Hin as (i & <- & _). eexists. reflexivity.
Qed.

Lemma p6_ring_patches_in (inp : Inputs) (hpr : Z) (c : Circle) :
  In c (ring_patches inp hpr) ->
  exists pcd a,
    In pcd (pcd_values inp)
    /\ c = mkCircle (pcd / 2 * cos a) (pcd / 2 * sin a) (final_diameter inp / 2).
Proof.
  unfold ring_patches, ring_rows. intro Hin.
  apply in_concat in Hin. destruct Hin as (row & Hrow & Hc).
  apply in_map_iff in Hrow. destruct Hrow as (pcd & <- & Hpcd).
  apply p6_ring_row_in in Hc. destruct Hc as (a & ->).
  now exists pcd, a.
Qed.

(** X14.  In [die_perforation_6.py] a row whose pitch circle diameter
    exceeds that of the last row by more than 20 has its first hole centred
    beyond the right limit of the ring plot; when no row is wider than the
    last one, the diameters are not negative and the final diameter is at
    most 20, every hole lies within the limits with its whole disc. *)
Theorem p6_ring_view (inp : Inputs) (hpr : Z) (rows : list R) (last_pcd : R) :
  pcd_values inp = rows ++ [last_pcd] ->
  (forall d, (1 <= hpr)%Z -> In d rows -> last_pcd + 20 < d ->
     exists c hi,
       In c (ax_patches (ax_ring inp hpr))
       /\ option_map snd (ax_xlim (ax_ring inp hpr)) = Some hi
       /\ hi < circle_x c)
  /\ ((forall d, In d (pcd_values inp) -> 0 <= d <= last_pcd) ->
      final_diameter inp <= 20 ->
      forall c, In c (ax_patches (ax_ring inp hpr)) ->
        exists lo hi,
          ax_xlim (ax_ring inp hpr) = Some (lo, hi)
          /\ ax_ylim (ax_ring inp hpr) = Some (lo, hi)
          /\ lo <= circle_x c - circle_radius c
          /\ circle_x c + circle_radius c <= hi
          /\ lo <= circle_y c - circle_radius c
          /\ circle_y c + circle_radius c <= hi).
Proof.
  intro Hrows.
  assert (Hpatches : ax_patches (ax_ring inp hpr) = ring_patches inp hpr).
  { unfold ax_ring. rewrite p6_ring_loop_patches. reflexivity. }
  assert (Hlim : ax_xlim (ax_ring inp hpr)
                 = Some (- (last_pcd / 2) - 10, last_pcd / 2 + 10)
                 /\ ax_ylim (ax_ring inp hpr)
                    = Some (- (last_pcd / 2) - 10, last_pcd / 2 + 10)).
  { unfold ax_ring. rewrite Hrows. apply p6_ring_loop_limits. }
  destruct Hlim as [Hx Hy]. rewrite Hpatches, Hx, Hy. split.
  - intros d Hh Hd Hwide.
    exists (mkCircle (d / 2) 0 (final_diameter inp / 2)), (last_pcd / 2 + 10).
    split; [| split; [reflexivity | simpl; lra]].
    unfold ring_patches, ring_rows. apply in_concat.
    exists (ring_row inp (d / 2) hpr). split.
    + apply in_map_iff. exists d. split; [reflexivity |].
      rewrite Hrows. apply in_or_app. now left.
    + unfold ring_row. apply in_map_iff. exists 0%nat. split.
      * simpl INR. replace (2 * Np.pi * 0 / IZR hpr) with 0
          by (unfold Rdiv; ring).
        rewrite cos_0, sin_0. f_equal; ring.
      * unfold Py.range. apply in_seq. lia.
  - intros Hmax Hfd c Hc.
    apply p6_ring_patches_in in Hc. destruct Hc as (pcd & a & Hpcd & ->).
    destruct (Hmax pcd Hpcd) as [H0 Hle].
    destruct (circle_extent (pcd / 2) a) as [Hcos Hsin]; [lra |].
    exists (- (last_pcd / 2) - 10), (last_pcd / 2 + 10).
    split; [reflexivity |]. split; [reflexivity |].
    cbn [circle_x circle_y circle_radius]. repeat split; lra.
Qed.

(** Rows on the pitch circles 180, 140 and 100: the limits are those of the
    last row, and the first hole of the first row is centred beyond them. *)
Lemma p6_ring_view_witness :
  pcd_values p6_spread_reversed = [180; 140] ++ [100]
  /\ (1 <= 33)%Z /\ In 180 [180; 140] /\ 100 + 20 < 180
  /\ exists c hi,
       In c (ax_patches (ax_ring p6_spread_reversed 33))
       /\ option_map snd (ax_xlim (ax_ring p6_spread_reversed 33)) = Some hi
       /\ hi < circle_x c.
Proof.
  assert (H : pcd_values p6_spread_reversed = [180; 140] ++ [100])
    by apply p6_spread_reversed_pcds.
  assert (H1 : (1 <= 33)%Z) by lia.
  assert (H2 : In 180 [180; 140]) by (simpl; auto).
  assert (H3 : 100 + 20 < 180) by lra.
  split; [exact H |]. split; [exact H1 |]. split; [exact H2 |].
  split; [exact H3 |].
  exact (proj1 (p6_ring_view p6_spread_reversed 33 _ _ H) 180 H1 H2 H3).
Defined.

End Perforation6_ring_axes.

Lemma max_loop_spec (l : list R) (best : R) :
  let m := fold_left (fun b y => if Rlt_dec b y then y else b) l best in
  (m = best \/ In m l) /\ best <= m /\ (forall x, In x l -> x <= m).
Proof.
  revert best. induction l as [| y l IH]; intro best; simpl.
  - split; [now left |]. split; [lra | intros x []].
  - destruct (Rlt_dec best y) as [Hlt | Hge].
    + destruct (IH y) as (Hin & Hle & Hall). split; [| split].
      * right. destruct Hin as [-> | Hin]; [now left | now right].
      * lra.
      * intros x [<- | Hx]; [exact Hle | now apply Hall].
    + destruct (IH best) as (Hin & Hle & Hall). split; [| split].
      * destruct Hin as [-> | Hin]; [now left | right; now right].
      * exact Hle.
      * intros x [<- | Hx]; [lra | now apply Hall].
Qed.

Lemma py_max_spec (l : list R) (m : R) :
  Py.max l = Some m -> In m l /\ (forall x, In x l -> x <= m).
Proof.
  destruct l as [| x t]; simpl; [discriminate |].
  intro H. injection H as <-.
  destruct (max_loop_spec t x) as (Hin & Hle & Hall). split.
  - destruct Hin as [-> | Hin]; [now left | now right].
  - intros y [<- | Hy]; [exact Hle | now apply Hall].
Qed.

Lemma map_range_nth {A : Type} (h : nat -> A) (n : Z) (i : nat) (d : A) :
  (i < Z.to_nat n)%nat -> nth i (map h (Py.range n)) d = h i.
Proof.
  intro Hi. apply nth_error_nth.
  now rewrite nth_error_map, range_nth.
Qed.

Lemma list_sum_ge_length (l : list nat) :
  Forall (fun n => (1 <= n)%nat) l -> (length l <= list_sum l)%nat.
Proof.
  induction 1 as [| n l Hn _ IH]; simpl; lia.
Qed.

Section Final4_ring_axes.
Import DieDesignerFinal4.

Lemma f4_ring_rows_eq (inp : Inputs) :
  ring_rows inp
  = map (fun row => ring_row inp (pcd_slider inp row / 2) (holes_input inp row))
        (Py.range (number_of_rows inp)).
Proof.
  unfold ring_rows. apply map_ext_in. intros row Hrow.
  unfold Py.range in Hrow. apply in_seq in Hrow.
  unfold pcd_values, holes_per_row_list.
  rewrite !map_range_nth by lia. reflexivity.
Qed.

Lemma f4_ring_patches_in (inp : Inputs) (c : Circle) :
  In c (ring_patches inp) ->
  exists pcd a,
    In pcd (pcd_values inp)
    /\ c = mkCircle (pcd / 2 * cos a) (pcd / 2 * sin a) (final_diameter inp / 2).
Proof.
  unfold ring_patches. rewrite f4_ring_rows_eq. intro Hin.
  apply in_concat in Hin. destruct Hin as (r & Hr & Hc).
  apply in_map_iff in Hr. destruct Hr as (row & <- & Hrow).
  unfold ring_row in Hc. apply in_map_iff in Hc. destruct Hc as (i & <- & _).
  exists (pcd_slider inp row). eexists. split; [| reflexivity].
  unfold pcd_values. now apply in_map.
Qed.

(** X15.  For settings within the widgets' ranges,
    [die_designer_final_4.py] sets the limits of the ring plot from the
    greatest pitch circle diameter, and every hole of every row lies within
    them with its whole disc. *)
Theorem f4_ring_in_view (inp : Inputs) :
  widgets_ok inp ->
  exists m,
    Py.max (pcd_values inp) = Some m
    /\ In m (pcd_values inp)
    /\ ring_xlim inp = Some (- m / 2 - 10, m / 2 + 10)
    /\ ring_ylim inp = Some (- m / 2 - 10, m / 2 + 10)
    /\ forall c, In c (ring_patches inp) ->
         - m / 2 - 10 <= circle_x c - circle_radius c
         /\ circle_x c + circle_radius c <= m / 2 + 10
         /\ - m / 2 - 10 <= circle_y c - circle_radius c
         /\ circle_y c + circle_radius c <= m / 2 + 10.
Proof.
  intro Hw.
  destruct (f4_widgets_bounds inp Hw)
    as (_ & Hnr & _ & _ & Hfd & _ & _ & _ & Hpcd & _).
  assert (Hne : exists m, Py.max (pcd_values inp) = Some m).
  { pose proof (proj1 (f4_lists_length inp)) as Hlen.
    destruct (pcd_values inp) as [| x t]; [simpl in Hlen; lia |].
    eexists. reflexivity. }
  destruct Hne as [m Hm]. destruct (py_max_spec _ _ Hm) as [Hin Hmax].
  exists m. split; [exact Hm |]. split; [exact Hin |].
  unfold ring_xlim, ring_ylim. rewrite Hm.
  split; [reflexivity |]. split; [reflexivity |].
  intros c Hc. apply f4_ring_patches_in in Hc.
  destruct Hc as (pcd & a & Hp & ->).
  pose proof (Hmax pcd Hp) as Hle.
  assert (H0 : 50 <= pcd).
  { unfold pcd_values in Hp. apply in_map_iff in Hp.
    destruct Hp as (i & <- & _). apply Hpcd. }
  destruct (circle_extent (pcd / 2) a) as [Hcos Hsin]; [lra |].
  cbn [circle_x circle_y circle_radius]. repeat split; lra.
Qed.

Lemma f4_ring_in_view_witness :
  widgets_ok f4_default
  /\ ring_xlim f4_default = Some (- 100 / 2 - 10, 100 / 2 + 10).
Proof.
  split; [apply f4_default_widgets_ok |].
  destruct (f4_ring_in_view f4_default f4_default_widgets_ok)
    as (m & _ & Hin & Hx & _).
  assert (H100 : m = 100).
  { unfold pcd_values in Hin. apply in_map_iff in Hin.
    destruct Hin as (i & <- & _). reflexivity. }
  rewrite Hx, H100. reflexivity.
Defined.

(** X16.  The number of holes [die_designer_final_4.py] draws is the sum of
    the hole counts of the rows (a negative count counting as 0); for
    settings within the widgets' ranges it is at least the number of rows. *)
Theorem f4_ring_count (inp : Inputs) :
  length (ring_patches inp)
  = list_sum (map Z.to_nat (holes_per_row_list inp))
  /\ (widgets_ok inp ->
      (number_of_rows inp <= Z.of_nat (length (ring_patches inp)))%Z).
Proof.
  assert (Hcount : length (ring_patches inp)
                   = list_sum (map Z.to_nat (holes_per_row_list inp))).
  { unfold ring_patches. rewrite length_concat, f4_ring_rows_eq.
    unfold holes_per_row_list. rewrite !map_map. f_equal.
    apply map_ext. intro row. unfold ring_row.
    now rewrite length_map, range_length. }
  split; [exact Hcount |]. intro Hw.
  destruct (f4_widgets_bounds inp Hw) as (_ & Hnr & _ & _ & _ & _ & _ & _ & _ & Hh).
  rewrite Hcount.
  pose proof (list_sum_ge_length (map Z.to_nat (holes_per_row_list inp))) as Hge.
  rewrite length_map, (proj2 (f4_lists_length inp)) in Hge.
  assert (Hall : Forall (fun n => (1 <= n)%nat)
                        (map Z.to_nat (holes_per_row_list inp))).
  { unfold holes_per_row_list. rewrite map_map. apply Forall_map, Forall_forall.
    intros i _. pose proof (Hh i). lia. }
  specialize (Hge Hall). lia.
Qed.

(** The defaults ask for 100 holes and draw 5 rows of 10. *)
Lemma f4_ring_count_witness :
  widgets_ok f4_default
  /\ total_holes f4_default = 100%Z
  /\ length (ring_patches f4_default) = 50%nat.
Proof.
  split; [apply f4_default_widgets_ok |]. split; [reflexivity |].
  rewrite (proj1 (f4_ring_count f4_default)). reflexivity.
Defined.

End Final4_ring_axes.

(** ** The straight distance between neighbouring holes *)

(** The chord between the points at angles [a] and [a + b] of a circle. *)
Lemma chord_sqr (r a b : R) :
  (r * cos (a + b) - r * cos a) ^ 2 + (r * sin (a + b) - r * sin a) ^ 2
  = (2 * r * sin (b / 2)) ^ 2.
Proof.
  rewrite cos_plus, sin_plus.
  pose proof (sin2_cos2 a) as Ha. unfold Rsqr in Ha.
  pose proof (sin2_cos2 b) as Hb. unfold Rsqr in Hb.
  assert (Hcb : cos b = 1 - 2 * sin (b / 2) * sin (b / 2)).
  { rewrite <- cos_2a_sin. f_equal. field. }
  replace ((r * (cos a * cos b - sin a * sin b) - r * cos a) ^ 2
           + (r * (sin a * cos b + cos a * sin b) - r * sin a) ^ 2)
    with (r ^ 2 * ((sin b * sin b + cos b * cos b) + 1 - 2 * cos b)
          * (sin a * sin a + cos a * cos a)) by ring.
  rewrite Ha, Hb, Hcb. ring.
Qed.

Lemma sin_le_arg (x : R) : 0 <= x -> sin x <= x.
Proof.
  intros [H | <-]; [left; now apply sin_lt_x | rewrite sin_0; lra].
Qed.

Section Perforation6_chord.
Import DiePerforation6.

(** X17.  In a row of [die_perforation_6.py] with [holesPerRow >= 1] holes
    on a pitch circle of diameter [pcd >= 0], the centres of two neighbouring
    holes are [pcd * sin(pi / holesPerRow)] apart, so the straight gap
    between the two holes is at most the spacing the script reports for the
    row, which is measured along the arc. *)
Theorem p6_neighbour_distance (inp : Inputs) (hpr : Z) (pcd : R) (i : nat)
  (c1 c2 : Circle) :
  (1 <= hpr)%Z ->
  0 <= pcd ->
  nth_error (ring_row inp (pcd / 2) hpr) i = Some c1 ->
  nth_error (ring_row inp (pcd / 2) hpr) (S i) = Some c2 ->
  let dist := sqrt ((circle_x c2 - circle_x c1) ^ 2
                    + (circle_y c2 - circle_y c1) ^ 2) in
  dist = pcd * sin (PI / IZR hpr)
  /\ dist - final_diameter inp
     <= 2 * PI * (pcd / 2) / IZR hpr - final_diameter inp.
Proof.
  intros Hh Hpcd H1 H2 dist.
  assert (Hi : (S i < Z.to_nat hpr)%nat).
  { rewrite <- (ring_row_length inp (pcd / 2) hpr).
    apply nth_error_Some. congruence. }
  rewrite p6_ring_row_nth in H1 by lia.
  rewrite p6_ring_row_nth in H2 by lia.
  assert (Hc1 : c1 = mkCircle (pcd / 2 * cos (2 * PI * INR i / IZR hpr))
                              (pcd / 2 * sin (2 * PI * INR i / IZR hpr))
                              (final_diameter inp / 2)) by congruence.
  assert (Hc2 : c2 = mkCircle (pcd / 2 * cos (2 * PI * INR (S i) / IZR hpr))
                              (pcd / 2 * sin (2 * PI * INR (S i) / IZR hpr))
                              (final_diameter inp / 2)) by congruence.
  clear H1 H2. subst c1 c2.
  assert (Hn : 1 <= IZR hpr) by (apply IZR_le; lia).
  pose proof PI_RGT_0 as HP.
  assert (Hx0 : 0 < PI / IZR hpr) by (apply Rdiv_lt_0_compat; lra).
  assert (Hxpi : PI / IZR hpr <= PI).
  { apply Rmult_le_reg_r with (r := IZR hpr); [lra |].
    replace (PI / IZR hpr * IZR hpr) with PI by (field; lra). nra. }
  assert (Hsin : 0 <= sin (PI / IZR hpr)) by (apply sin_ge_0; lra).
  assert (Hdist : dist = pcd * sin (PI / IZR hpr)).
  { unfold dist. cbn [circle_x circle_y].
    rewrite (angle_step hpr i Hh), chord_sqr.
    replace (2 * PI / IZR hpr / 2) with (PI / IZR hpr) by (field; lra).
    replace (2 * (pcd / 2) * sin (PI / IZR hpr))
      with (pcd * sin (PI / IZR hpr)) by field.
    apply sqrt_pow2. now apply Rmult_le_pos. }
  split; [exact Hdist |]. rewrite Hdist.
  pose proof (sin_le_arg (PI / IZR hpr) (Rlt_le _ _ Hx0)) as Hle.
  replace (2 * PI * (pcd / 2) / IZR hpr) with (pcd * (PI / IZR hpr))
    by (field; lra).
  nra.
Qed.

Lemma p6_neighbour_distance_witness :
  (1 <= 20)%Z /\ 0 <= 100
  /\ exists c1 c2,
       nth_error (ring_row p6_default (100 / 2) 20) 0 = Some c1
       /\ nth_error (ring_row p6_default (100 / 2) 20) 1 = Some c2
       /\ sqrt ((circle_x c2 - circle_x c1) ^ 2
                + (circle_y c2 - circle_y c1) ^ 2)
          = 100 * sin (PI / 20).
Proof.
  assert (H1 : (1 <= 20)%Z) by lia.
  assert (H2 : 0 <= 100) by lra.
  split; [exact H1 |]. split; [exact H2 |].
  do 2 eexists.
  assert (Ha : nth_error (ring_row p6_default (100 / 2) 20) 0 = Some _)
    by (apply p6_ring_row_nth; simpl; lia).
  assert (Hb : nth_error (ring_row p6_default (100 / 2) 20) 1 = Some _)
    by (apply p6_ring_row_nth; simpl; lia).
  split; [exact Ha |]. split; [exact Hb |].
  exact (proj1 (p6_neighbour_distance p6_default 20 100 0 _ _ H1 H2 Ha Hb)).
Defined.

End Perforation6_chord.

(** ** The gap between rows is never negative *)

Section Perforation6_gap_sign.
Import DiePerforation6.

Lemma mean_diff_ends (a : R) (l : list R) :
  Np.mean (Np.diff (a :: l)) = (last l a - a) / INR (length l).
Proof. unfold Np.mean. now rewrite sum_diff, diff_length. Qed.

(** X19.  The gap between rows [die_perforation_6.py] reports is never
    negative; with at least two rows it is zero exactly when all rows have
    the same pitch circle diameter. *)
Theorem p6_space_between_rows_sign (inp : Inputs) :
  0 <= space_between_rows inp
  /\ ((2 <= number_of_rows inp)%Z ->
      (space_between_rows inp = 0
       <-> forall x y, In x (pcd_values inp) -> In y (pcd_values inp) -> x = y)).
Proof.
  set (pcds := pcd_values inp).
  pose proof (sorted_ascending pcds) as Hasc.
  pose proof (sorted_perm pcds) as Hperm.
  assert (Hlen : length pcds = Z.to_nat (number_of_rows inp))
    by apply pcd_values_length.
  assert (Hslen : length (Py.sorted pcds) = length pcds)
    by (apply Permutation_length, Permutation_sym, Hperm).
  unfold space_between_rows. fold pcds.
  destruct (Nat.ltb_spec 1 (length pcds)) as [Hmany | Hfew].
  - destruct (Py.sorted pcds) as [| a l] eqn:Hs; [simpl in Hslen; lia |].
    rewrite (mean_diff_ends a l).
    assert (Hn : 0 < INR (length l)).
    { apply lt_0_INR. simpl in Hslen. lia. }
    pose proof (ascending_last a l Hasc) as Hlast.
    rewrite Forall_forall in Hlast.
    assert (Hfirst : forall x, In x (a :: l) -> a <= x).
    { inversion Hasc as [| ? ? _ Hall]; subst. rewrite Forall_forall in Hall.
      intros x [<- | Hx]; [lra | now apply Hall]. }
    assert (Hal : a <= last l a) by (apply Hlast; now left).
    assert (Hi : 0 < / INR (length l)) by now apply Rinv_0_lt_compat.
    split.
    + unfold Rdiv. nra.
    + intros _. split.
      * intros H0 x y Hx Hy.
        assert (Heq : last l a = a) by (unfold Rdiv in H0; nra).
        apply (Permutation_in _ Hperm) in Hx, Hy.
        pose proof (Hlast x Hx). pose proof (Hfirst x Hx).
        pose proof (Hlast y Hy). pose proof (Hfirst y Hy). lra.
      * intro Hall.
        assert (Heq : last l a = a).
        { apply Hall; apply (Permutation_in _ (Permutation_sym Hperm)).
          - apply last_in.
          - now left. }
        rewrite Heq. unfold Rdiv. ring.
  - split; [lra |]. intro Hrows. lia.
Qed.

Lemma p6_space_between_rows_sign_witness :
  (2 <= number_of_rows p6_default)%Z
  /\ space_between_rows p6_default = 0.
Proof.
  assert (H : (2 <= number_of_rows p6_default)%Z) by (simpl; lia).
  split; [exact H |].
  apply (proj2 (p6_space_between_rows_sign p6_default) H).
  intros x y Hx Hy. unfold pcd_values in Hx, Hy.
  apply in_map_iff in Hx, Hy.
  destruct Hx as (i & <- & _), Hy as (j & <- & _). reflexivity.
Defined.

End Perforation6_gap_sign.
